(** * dago-node-router: routing engine and stream worker

    A shallow embedding of [internal/router] (router.go, deterministic.go,
    llm.go, hybrid.go), of [internal/eval] (the CEL evaluator and the
    template engine), of [internal/worker] (worker.go, health.go), of the
    worker's settings and of the Redis-backed state store of
    [cmd/router-worker], followed by their properties.

    Conventions.
    - Go [string] is [string]; Go [error] is its message, a [string];
      a Go function returning [(T, error)] returns [result T]; a call that
      may panic returns [go T].
    - [map[string]T] is [gmap string T]; a pointer that may be nil is an
      [option].
    - The libraries the program calls (cel-go, raymond, the language-model
      client, the Unicode-aware functions of Go's [strings]) are records of
      their operations; so is the order the Go runtime picks for a [range]
      over a map.
    - Logging has no effect on the results and is left out. *)

From Stdlib Require Import String Ascii ZArith List.
From stdpp Require Import gmap strings list fin_maps pretty.

Set Warnings "-register-all".
Open Scope string_scope.

(** ** Results of fallible calls *)

Inductive result (A : Type) : Type :=
  | Ok (a : A)
  | Err (msg : string).
Arguments Ok {A} a.
Arguments Err {A} msg.

(** A call that returns, or panics. *)
Inductive go (A : Type) : Type :=
  | Return (a : A)
  | Panics.
Arguments Return {A} a.
Arguments Panics {A}.

(** ** The part of Go's [strings] package used by the router

    [Contains] compares bytes and is defined here.  [ToLower], [TrimSpace]
    and [EqualFold] follow Unicode's case mapping, white space and case
    folding: they are the fields of a record [Lib], of which only one fact
    is used, that lowercasing the empty string gives the empty string.  The
    functions named [ascii...] are their restriction to ASCII, with which
    they agree on ASCII strings; the examples run on those. *)
Module GoStrings.

(** [Contains s substr]: [substr] occurs in [s]. *)
Fixpoint Contains (s substr : string) : bool :=
  String.prefix substr s ||
  match s with
  | EmptyString => false
  | String _ s' => Contains s' substr
  end.

Record Lib := {
  ToLower : string → string;
  TrimSpace : string → string;
  EqualFold : string → string → bool;
  ToLower_empty : ToLower "" = "";
}.

Definition isUpper (c : ascii) : bool :=
  let n := nat_of_ascii c in (65 <=? n)%nat && (n <=? 90)%nat.

Definition toLowerByte (c : ascii) : ascii :=
  if isUpper c then ascii_of_nat (nat_of_ascii c + 32) else c.

Fixpoint asciiToLower (s : string) : string :=
  match s with
  | EmptyString => EmptyString
  | String c s' => String (toLowerByte c) (asciiToLower s')
  end.

(** '\t', '\n', '\v', '\f', '\r', ' ' *)
Definition isSpace (c : ascii) : bool :=
  let n := nat_of_ascii c in
  ((9 <=? n)%nat && (n <=? 13)%nat) || (n =? 32)%nat.

Fixpoint trimLeft (s : string) : string :=
  match s with
  | EmptyString => EmptyString
  | String c s' => if isSpace c then trimLeft s' else s
  end.

Fixpoint trimRight (s : string) : string :=
  match s with
  | EmptyString => EmptyString
  | String c s' =>
      match trimRight s' with
      | EmptyString => if isSpace c then EmptyString else String c EmptyString
      | t => String c t
      end
  end.

Definition asciiTrimSpace (s : string) : string := trimRight (trimLeft s).

Fixpoint asciiEqualFold (s t : string) : bool :=
  match s, t with
  | EmptyString, EmptyString => true
  | String a s', String b t' =>
      Ascii.eqb (toLowerByte a) (toLowerByte b) && asciiEqualFold s' t'
  | _, _ => false
  end.

Definition asciiLib : Lib :=
  {| ToLower := asciiToLower; TrimSpace := asciiTrimSpace;
     EqualFold := asciiEqualFold; ToLower_empty := eq_refl |}.

End GoStrings.

(** ** [dago-libs/pkg/domain]: the types the router reads

    [Value] is an [interface{}] value as it comes out of JSON decoding and
    of CEL.  [NodeStates] is a [map[string]*NodeState]: a node state may be
    the nil pointer (a JSON [null]). *)
Module domain.

Inductive Value : Type :=
  | VNull
  | VBool (b : bool)
  | VNum (n : Z)
  | VStr (s : string)
  | VList (l : list Value)
  | VMap (m : gmap string Value).

Record NodeState := {
  ns_Status : string;
  ns_Output : Value;
  ns_Error : Value;
  ns_StartedAt : Value;
  ns_CompletedAt : Value;
}.

Record GraphState := {
  GraphID : string;
  Status : string;
  Inputs : gmap string Value;
  NodeStates : gmap string (option NodeState);
}.

Record LLMRequest := {
  req_Model : string;
  req_Messages : list (string * string);  (* Role, Content *)
  req_MaxTokens : Z;
}.

(** What [LLMClient.GenerateCompletion] hands back: an error; an
    [*LLMResponse] with its [Content]; a nil [*LLMResponse] (which passes
    the caller's type assertion); or a value of some other type, the nil
    interface included. *)
Inductive Completion : Type :=
  | CompletionErr (e : string)
  | CompletionResponse (content : string)
  | CompletionNilResponse
  | CompletionOther.

End domain.
Import domain.

(** ** Package [cel]: the evaluator and its cache of compiled programs

    The cel-go library is a record of the four operations the evaluator
    calls, over the library's own types of syntax trees, programs and
    values.  [ConvertToNative] takes the type descriptor wanted, [None] for
    the nil descriptor.  In cel-go v0.18.2 no conversion succeeds at the nil
    descriptor: a value's [ConvertToNative] starts by calling a method of
    the descriptor, which panics when it is nil, or answers an error; that
    is the field [nilDescriptor]. *)
Module cel.

Inductive Converted : Type :=
  | ConvertedTo (v : Value)
  | ConvertErr (err : string)
  | ConvertPanic.

Record Env := {
  Ast : Type;
  Program : Type;
  Val : Type;
  Compile : string → result Ast;
  MakeProgram : Ast → result Program;
  Eval : Program → gmap string Value → result Val;
  ConvertToNative : Val → option string → Converted;
  nilDescriptor : ∀ out v, ConvertToNative out None ≠ ConvertedTo v;
}.

(** evaluator.go, getProgram, run by one goroutine: the result and the
    cache afterwards. *)
Definition getProgram (env : Env) (cache : gmap string (Program env))
    (expression : string)
  : result (Program env) * gmap string (Program env) :=
  match cache !! expression with
  | Some program => (Ok program, cache)
  | None =>
      match Compile env expression with
      | Err err => (Err ("parse error: " ++ err), cache)
      | Ok ast =>
          match MakeProgram env ast with
          | Err err => (Err ("program generation error: " ++ err), cache)
          | Ok program => (Ok program, <[expression := program]> cache)
          end
      end
  end.

(** evaluator.go, Evaluate: [out.ConvertToNative(nil)] is the call at the
    nil descriptor. *)
Definition Evaluate (env : Env) (cache : gmap string (Program env))
    (expression : string) (vars : gmap string Value)
  : go (result Value) * gmap string (Program env) :=
  match getProgram env cache expression with
  | (Err err, cache') =>
      (Return (Err ("failed to compile expression: " ++ err)), cache')
  | (Ok program, cache') =>
      match Eval env program vars with
      | Err err => (Return (Err ("evaluation failed: " ++ err)), cache')
      | Ok out =>
          match ConvertToNative env out None with
          | ConvertPanic => (Panics, cache')
          | ConvertErr err =>
              (Return (Err ("failed to convert result: " ++ err)), cache')
          | ConvertedTo res => (Return (Ok res), cache')
          end
      end
  end.

(** evaluator.go, ValidateExpression: the output type is computed and
    dropped, so only the compile step decides. *)
Definition ValidateExpression (env : Env) (expression : string)
  : option string :=
  match Compile env expression with
  | Err err => Some err
  | Ok _ => None
  end.

(** evaluator.go, ClearCache *)
Definition ClearCache {Program} (cache : gmap string Program)
  : gmap string Program := ∅.

End cel.

(** ** Package [router] *)
Module router.

Definition RoutingMode := string.
Definition ModeDeterministic : RoutingMode := "deterministic".
Definition ModeLLM : RoutingMode := "llm".
Definition ModeHybrid : RoutingMode := "hybrid".

Record Rule := {
  Condition : string;
  Target : string;
}.

Record LLMConfig := {
  PromptTemplate : string;
  Routes : gmap string string;
}.

Record NodeConfig := {
  Mode : RoutingMode;
  Rules : list Rule;
  FastRules : list Rule;
  LLMConfig_ : option LLMConfig;
  LLMFallback : option LLMConfig;
  Fallback : string;
  Config : gmap string Value;
}.

Record RoutingResult := {
  TargetNode : string;
  Reasoning : string;
  Mode_ : string;
  PathTaken : string;
}.

(** The order in which one [range] statement visits a map. *)
Definition RangeOrder := gmap string string → list (string * string).

Record Router := {
  (** the cel-go library behind [celEvaluator]; the evaluator's cache is
      left out: by [cel_cache_transparent] below, [Evaluate] answers from
      any cache it has built what it answers from the empty one *)
  celEvaluator : cel.Env;
  (** [templateEngine.Render(template, data)] *)
  templateEngine : string → gmap string Value → result string;
  (** [llmClient.GenerateCompletion(ctx, req)]; [None] is a nil client *)
  llmClient : option (LLMRequest → Completion);
  (** Go's [strings.ToLower], [strings.TrimSpace], [strings.EqualFold] *)
  stringsLib : GoStrings.Lib;
  (** the runtime's iteration order at the two [range routes] loops of
      [matchLLMResponse] *)
  rangeEqualFold : RangeOrder;
  rangeContains : RangeOrder;
}.

(** What a call of [Route] can do: return a result, return an error, or
    panic. *)
Inductive Outcome : Type :=
  | Returned (res : result RoutingResult)
  | Panicked.

Definition withMode (config : NodeConfig) (m : RoutingMode) : NodeConfig :=
  {| Mode := m; Rules := Rules config; FastRules := FastRules config;
     LLMConfig_ := LLMConfig_ config; LLMFallback := LLMFallback config;
     Fallback := Fallback config; Config := Config config |}.

(** router.go, detectMode *)
Definition detectMode (config : NodeConfig) : RoutingMode :=
  if (0 <? length (FastRules config))%nat && bool_decide (LLMFallback config ≠ None)
  then ModeHybrid
  else if bool_decide (LLMConfig_ config ≠ None) then ModeLLM
  else if (0 <? length (Rules config))%nat then ModeDeterministic
  else ModeDeterministic.

(** The [for i, rule := range config.Rules] loop of [validateConfig]:
    the first error, if any. *)
Fixpoint validateRules (i : nat) (rules : list Rule) : option string :=
  match rules with
  | [] => None
  | rule :: rest =>
      if String.eqb (Condition rule) "" then
        Some ("rule " ++ pretty i ++ ": condition is required")
      else if String.eqb (Target rule) "" then
        Some ("rule " ++ pretty i ++ ": target is required")
      else validateRules (S i) rest
  end.

(** router.go, validateConfig; [None] is the nil error. *)
Definition validateConfig (config : option NodeConfig) : option string :=
  match config with
  | None => Some "config is nil"
  | Some config =>
      if String.eqb (Fallback config) "" then Some "fallback route is required"
      else if String.eqb (Mode config) ModeDeterministic then
        if (length (Rules config) =? 0)%nat then
          Some "deterministic mode requires rules"
        else validateRules 0 (Rules config)
      else if String.eqb (Mode config) ModeLLM then
        match LLMConfig_ config with
        | None => Some "llm mode requires llm_config"
        | Some lc =>
            if String.eqb (PromptTemplate lc) "" then
              Some "llm_config.prompt_template is required"
            else if (size (Routes lc) =? 0)%nat then
              Some "llm_config.routes is required"
            else None
        end
      else if String.eqb (Mode config) ModeHybrid then
        if (length (FastRules config) =? 0)%nat then
          Some "hybrid mode requires fast_rules"
        else
          match LLMFallback config with
          | None => Some "hybrid mode requires llm_fallback"
          | Some lc =>
              if String.eqb (PromptTemplate lc) "" then
                Some "llm_fallback.prompt_template is required"
              else if (size (Routes lc) =? 0)%nat then
                Some "llm_fallback.routes is required"
              else None
          end
      else None
  end.

(** The projection of one node state. *)
Definition nodeStateView (nodeState : NodeState) : Value :=
  VMap (<["status" := VStr (ns_Status nodeState)]>
       (<["output" := ns_Output nodeState]>
       (<["error" := ns_Error nodeState]>
       (<["started_at" := ns_StartedAt nodeState]>
       (<["completed_at" := ns_CompletedAt nodeState]> ∅))))).

(** deterministic.go, convertNodeStates: every node state is dereferenced,
    so a nil one panics. *)
Definition convertNodeStates (nodeStates : gmap string (option NodeState))
  : go (gmap string Value) :=
  if bool_decide (map_Forall (λ _ nodeState, nodeState ≠ None) nodeStates)
  then Return (omap (λ nodeState, nodeStateView <$> nodeState) nodeStates)
  else Panics.

(** deterministic.go, prepareStateForCEL *)
Definition prepareStateForCEL (state : GraphState) : go (gmap string Value) :=
  match convertNodeStates (NodeStates state) with
  | Panics => Panics
  | Return nodeStates =>
      Return
        (<["state" :=
             VMap (<["graph_id" := VStr (GraphID state)]>
                  (<["status" := VStr (Status state)]>
                  (<["inputs" := VMap (Inputs state)]>
                  (<["node_states" := VMap nodeStates]> ∅))))]> ∅)
  end.

(** [r.celEvaluator.Evaluate(ctx, expression, vars)] *)
Definition celEvaluate (r : Router) (expression : string)
    (vars : gmap string Value) : go (result Value) :=
  (cel.Evaluate (celEvaluator r) ∅ expression vars).1.

(** The rule loop shared, statement for statement, by [routeDeterministic]
    (over [config.Rules]) and [routeHybrid] (over [config.FastRules]):
    an evaluation error and a non-boolean result both [continue]; the
    first rule evaluating to [true] returns [mk i rule]; a panic of the
    evaluator ends the call. *)
Fixpoint ruleLoop (r : Router) (celState : gmap string Value)
    (mk : nat → Rule → RoutingResult) (i : nat) (rules : list Rule)
  : go (option RoutingResult) :=
  match rules with
  | [] => Return None
  | rule :: rest =>
      match celEvaluate r (Condition rule) celState with
      | Panics => Panics
      | Return (Err _) => ruleLoop r celState mk (S i) rest
      | Return (Ok (VBool matched)) =>
          if matched then Return (Some (mk i rule))
          else ruleLoop r celState mk (S i) rest
      | Return (Ok _) => ruleLoop r celState mk (S i) rest
      end
  end.

(** deterministic.go, routeDeterministic *)
Definition routeDeterministic (r : Router) (state : GraphState)
    (config : NodeConfig) : Outcome :=
  match validateConfig (Some config) with
  | Some err => Returned (Err ("invalid config: " ++ err))
  | None =>
      match prepareStateForCEL state with
      | Panics => Panicked
      | Return celState =>
          match ruleLoop r celState
                  (λ i rule,
                     {| TargetNode := Target rule;
                        Reasoning := "matched rule " ++ pretty i ++ ": "
                                     ++ Condition rule;
                        Mode_ := ModeDeterministic;
                        PathTaken := "fast" |})
                  0 (Rules config) with
          | Panics => Panicked
          | Return (Some res) => Returned (Ok res)
          | Return None =>
              Returned (Ok {| TargetNode := Fallback config;
                              Reasoning := "no rules matched";
                              Mode_ := ModeDeterministic;
                              PathTaken := "fallback" |})
          end
      end
  end.

(** llm.go, renderPrompt: the data handed to the template engine. *)
Definition promptData (state : GraphState) : gmap string Value :=
  let data : gmap string Value :=
    <["state" :=
        VMap (<["graph_id" := VStr (GraphID state)]>
             (<["status" := VStr (Status state)]>
             (<["inputs" := VMap (Inputs state)]> ∅)))]> ∅ in
  (* for key, value := range state.Inputs { data[key] = value } *)
  map_fold (λ key value (data : gmap string Value), <[key := value]> data)
           data (Inputs state).

Definition renderPrompt (r : Router) (state : GraphState) (template : string)
  : result string :=
  templateEngine r template (promptData state).

(** llm.go, callLLM; the caller has checked [r.llmClient != nil].  A nil
    [*LLMResponse] passes the type assertion and [resp.Content] panics. *)
Definition callLLM (client : LLMRequest → Completion) (prompt : string)
  : go (result string) :=
  let req := {| req_Model := "claude-sonnet-4-20250514";
                req_Messages := [("user", prompt)];
                req_MaxTokens := 1024 |} in
  match client req with
  | CompletionErr err => Return (Err ("llm completion failed: " ++ err))
  | CompletionOther => Return (Err "unexpected response type from LLM")
  | CompletionNilResponse => Panics
  | CompletionResponse content => Return (Ok content)
  end.

(** [for key, target := range routes { if p(key) { return target, true } }]
    over the visiting order [order]. *)
Fixpoint rangeReturn (p : string → bool) (order : list (string * string))
  : option string :=
  match order with
  | [] => None
  | (key, target) :: rest =>
      if p key then Some target else rangeReturn p rest
  end.

(** llm.go, matchLLMResponse *)
Definition matchLLMResponse (r : Router) (response : string)
    (routes : gmap string string) : string * bool :=
  let normalized :=
    GoStrings.TrimSpace (stringsLib r)
      (GoStrings.ToLower (stringsLib r) response) in
  match routes !! normalized with
  | Some target => (target, true)
  | None =>
      match rangeReturn (λ key, GoStrings.EqualFold (stringsLib r) key normalized)
                        (rangeEqualFold r routes) with
      | Some target => (target, true)
      | None =>
          match rangeReturn
                  (λ key, GoStrings.Contains normalized
                            (GoStrings.ToLower (stringsLib r) key))
                  (rangeContains r routes) with
          | Some target => (target, true)
          | None => ("", false)
          end
      end
  end.

(** A nil [*LLMConfig] dereferenced: unreachable after [validateConfig],
    kept so that the functions are total. *)
Definition nilLLMConfig : LLMConfig :=
  {| PromptTemplate := ""; Routes := ∅ |}.

(** llm.go, routeLLM *)
Definition routeLLM (r : Router) (state : GraphState) (config : NodeConfig)
  : Outcome :=
  match validateConfig (Some config) with
  | Some err => Returned (Err ("invalid config: " ++ err))
  | None =>
      match llmClient r with
      | None => Returned (Err "llm client not configured")
      | Some client =>
          let lc := default nilLLMConfig (LLMConfig_ config) in
          match renderPrompt r state (PromptTemplate lc) with
          | Err err => Returned (Err ("failed to render prompt: " ++ err))
          | Ok prompt =>
              match callLLM client prompt with
              | Panics => Panicked
              | Return (Err err) =>
                  Returned (Ok {| TargetNode := Fallback config;
                                  Reasoning := "llm call failed: " ++ err;
                                  Mode_ := ModeLLM;
                                  PathTaken := "fallback" |})
              | Return (Ok response) =>
                  match matchLLMResponse r response (Routes lc) with
                  | (_, false) =>
                      Returned (Ok {| TargetNode := Fallback config;
                                      Reasoning := "llm response '" ++ response
                                                   ++ "' did not match any route";
                                      Mode_ := ModeLLM;
                                      PathTaken := "fallback" |})
                  | (target, true) =>
                      Returned (Ok {| TargetNode := target;
                                      Reasoning := "llm classified as: " ++ response;
                                      Mode_ := ModeLLM;
                                      PathTaken := "slow" |})
                  end
              end
          end
      end
  end.

(** hybrid.go, routeHybrid *)
Definition routeHybrid (r : Router) (state : GraphState) (config : NodeConfig)
  : Outcome :=
  match validateConfig (Some config) with
  | Some err => Returned (Err ("invalid config: " ++ err))
  | None =>
      match prepareStateForCEL state with
      | Panics => Panicked
      | Return celState =>
          match ruleLoop r celState
                  (λ i rule,
                     {| TargetNode := Target rule;
                        Reasoning := "matched fast rule " ++ pretty i ++ ": "
                                     ++ Condition rule;
                        Mode_ := ModeHybrid;
                        PathTaken := "fast" |})
                  0 (FastRules config) with
          | Panics => Panicked
          | Return (Some res) => Returned (Ok res)
          | Return None =>
              match llmClient r with
              | None =>
                  Returned (Ok {| TargetNode := Fallback config;
                                  Reasoning := "fast rules did not match and llm client not configured";
                                  Mode_ := ModeHybrid;
                                  PathTaken := "fallback" |})
              | Some client =>
                  let lc := default nilLLMConfig (LLMFallback config) in
                  match renderPrompt r state (PromptTemplate lc) with
                  | Err err =>
                      Returned (Ok {| TargetNode := Fallback config;
                                      Reasoning := "failed to render prompt: " ++ err;
                                      Mode_ := ModeHybrid;
                                      PathTaken := "fallback" |})
                  | Ok prompt =>
                      match callLLM client prompt with
                      | Panics => Panicked
                      | Return (Err err) =>
                          Returned (Ok {| TargetNode := Fallback config;
                                          Reasoning := "llm call failed: " ++ err;
                                          Mode_ := ModeHybrid;
                                          PathTaken := "fallback" |})
                      | Return (Ok response) =>
                          match matchLLMResponse r response (Routes lc) with
                          | (_, false) =>
                              Returned (Ok {| TargetNode := Fallback config;
                                              Reasoning := "llm response '" ++ response
                                                           ++ "' did not match any route";
                                              Mode_ := ModeHybrid;
                                              PathTaken := "fallback" |})
                          | (target, true) =>
                              Returned (Ok {| TargetNode := target;
                                              Reasoning := "llm classified as: " ++ response
                                                           ++ " (after fast rules failed)";
                                              Mode_ := ModeHybrid;
                                              PathTaken := "slow" |})
                          end
                      end
                  end
              end
          end
      end
  end.

(** [if config.Mode == "" { config.Mode = r.detectMode(config) }] *)
Definition resolveMode (config : NodeConfig) : NodeConfig :=
  if String.eqb (Mode config) "" then withMode config (detectMode config)
  else config.

(** router.go, Route.  The first statement reads [config.Mode], so a nil
    config panics before any validation; an empty mode is replaced by the
    detected one. *)
Definition Route (r : Router) (state : GraphState) (config : option NodeConfig)
  : Outcome :=
  match config with
  | None => Panicked
  | Some config =>
      let config := resolveMode config in
      if String.eqb (Mode config) ModeDeterministic then
        routeDeterministic r state config
      else if String.eqb (Mode config) ModeLLM then
        routeLLM r state config
      else if String.eqb (Mode config) ModeHybrid then
        routeHybrid r state config
      else Returned (Err ("unknown routing mode: " ++ Mode config))
  end.

End router.
Import router.

(** ** Package [worker] *)
Module worker.

(** [redis.XMessage] and [redis.XStream] *)
Record XMessage := {
  ID : string;
  Values : gmap string Value;
}.

Record XStream := {
  Stream : string;
  Messages : list XMessage;
}.

Record WorkRequest := {
  ExecutionID : string;
  NodeID : string;
  Config_ : gmap string Value;
}.

(** The [data] field of an appended entry: the JSON text of the decision
    map built by [publishDecision] or of the error map built by
    [publishError], kept structured. *)
Inductive Payload : Type :=
  | DecisionRecord (execution_id node_id target_node reasoning mode
                    path_taken : string) (timestamp : Z)
  | ErrorRecord (execution_id node_id error : string) (timestamp : Z).

(** One call to the broker, with the error it answered ([None]: success). *)
Inductive Call : Type :=
  | XAdd (stream : string) (data : Payload) (err : option string)
  | XAck (stream group id : string) (err : option string).

Record Worker := {
  id : string;
  streamKey : string;
  consumerGroup : string;
  resultStream : string;
  router_ : Router;
  (** [stateStore.Load(ctx, executionID)] *)
  stateStoreLoad : string → result (gmap string Value);
  (** [encoding/json] at the types the worker uses *)
  jsonMarshal : gmap string Value → result string;
  jsonUnmarshalWorkRequest : string → result WorkRequest;
  jsonUnmarshalGraphState : string → result GraphState;
  jsonUnmarshalNodeConfig : string → result NodeConfig;
  (** the broker's answer to [XAdd] and to [XAck] *)
  redisXAdd : string → Payload → option string;
  redisXAck : string → string → string → option string;
  (** [time.Now().UTC()] *)
  now : Z;
}.

(** Worker code runs against the log of broker calls made so far; [None]
    as a value is a panic, which ends the goroutine. *)
Definition M (A : Type) : Type := list Call → option A * list Call.

#[global] Instance M_ret : MRet M := λ A a tr, (Some a, tr).
#[global] Instance M_bind : MBind M :=
  λ A B k m tr, match m tr with
                | (Some a, tr') => k a tr'
                | (None, tr') => (None, tr')
                end.
Definition panic {A} : M A := λ tr, (None, tr).
Definition call (c : Call) : M unit := λ tr, (Some tt, (tr ++ [c])%list).

(** worker.go, parseWorkRequest *)
Definition parseWorkRequest (w : Worker) (values : gmap string Value)
  : result WorkRequest :=
  match values !! "data" with
  | Some (VStr dataStr) =>
      match jsonUnmarshalWorkRequest w dataStr with
      | Err err => Err ("failed to unmarshal work request: " ++ err)
      | Ok request => Ok request
      end
  | _ => Err "missing or invalid 'data' field"
  end.

(** worker.go, convertToGraphState *)
Definition convertToGraphState (w : Worker) (graphID : string)
    (stateData : gmap string Value) : result GraphState :=
  match jsonMarshal w stateData with
  | Err err => Err ("failed to marshal state: " ++ err)
  | Ok data =>
      match jsonUnmarshalGraphState w data with
      | Err err => Err ("failed to unmarshal to GraphState: " ++ err)
      | Ok graphState =>
          if String.eqb (GraphID graphState) "" then
            Ok {| GraphID := graphID; Status := Status graphState;
                  Inputs := Inputs graphState;
                  NodeStates := NodeStates graphState |}
          else Ok graphState
      end
  end.

(** worker.go, parseNodeConfig *)
Definition parseNodeConfig (w : Worker) (config : gmap string Value)
  : result NodeConfig :=
  match jsonMarshal w config with
  | Err err => Err ("failed to marshal config: " ++ err)
  | Ok data =>
      match jsonUnmarshalNodeConfig w data with
      | Err err => Err ("failed to unmarshal config: " ++ err)
      | Ok nodeConfig => Ok nodeConfig
      end
  end.

(** worker.go, publishDecision; the returned [option] is the Go error.
    [json.Marshal] of the decision map (strings and a timestamp) does not
    fail, so the append is always tried. *)
Definition publishDecision (w : Worker) (request : WorkRequest)
    (res : RoutingResult) : M (option string) :=
  let data := DecisionRecord (ExecutionID request) (NodeID request)
                (TargetNode res) (Reasoning res) (Mode_ res) (PathTaken res)
                (now w) in
  let err := redisXAdd w (resultStream w) data in
  call (XAdd (resultStream w) data err);;
  match err with
  | Some e => mret (Some ("failed to publish to stream: " ++ e))
  | None => mret None
  end.

(** worker.go, publishError: a failed append is logged, nothing more.
    As above, [json.Marshal] of the error map does not fail. *)
Definition publishError (w : Worker) (request : WorkRequest) (err : string)
  : M unit :=
  let data := ErrorRecord (ExecutionID request) (NodeID request) err (now w) in
  let stream := resultStream w ++ ".errors" in
  call (XAdd stream data (redisXAdd w stream data)).

(** worker.go, acknowledgeMessage: a failed ack is logged, nothing more. *)
Definition acknowledgeMessage (w : Worker) (messageID : string) : M unit :=
  call (XAck (streamKey w) (consumerGroup w) messageID
             (redisXAck w (streamKey w) (consumerGroup w) messageID)).

(** worker.go, processRoutingRequest *)
Definition processRoutingRequest (w : Worker) (request : WorkRequest)
  : M (option string) :=
  match stateStoreLoad w (ExecutionID request) with
  | Err err => mret (Some ("failed to load state: " ++ err))
  | Ok stateData =>
      match convertToGraphState w (ExecutionID request) stateData with
      | Err err => mret (Some ("failed to convert state: " ++ err))
      | Ok graphState =>
          match parseNodeConfig w (Config_ request) with
          | Err err => mret (Some ("failed to parse node config: " ++ err))
          | Ok nodeConfig =>
              match Route (router_ w) graphState (Some nodeConfig) with
              | Panicked => panic
              | Returned (Err err) => mret (Some ("routing failed: " ++ err))
              | Returned (Ok res) =>
                  perr ← publishDecision w request res;
                  match perr with
                  | Some err => mret (Some ("failed to publish decision: " ++ err))
                  | None => mret None
                  end
              end
          end
      end
  end.

(** worker.go, handleMessage *)
Definition handleMessage (w : Worker) (message : XMessage) : M unit :=
  let messageID := ID message in
  match parseWorkRequest w (Values message) with
  | Err _ => acknowledgeMessage w messageID
  | Ok workRequest =>
      perr ← processRoutingRequest w workRequest;
      match perr with
      | Some err => publishError w workRequest err
      | None => mret tt
      end;;
      acknowledgeMessage w messageID
  end.

(** The two nested loops of [processWork] over the result of one
    [XReadGroup]: every message of every stream is handled in turn. *)
Fixpoint handleMessages (w : Worker) (messages : list XMessage) : M unit :=
  match messages with
  | [] => mret tt
  | message :: rest => handleMessage w message;; handleMessages w rest
  end.

Fixpoint dispatch (w : Worker) (streams : list XStream) : M unit :=
  match streams with
  | [] => mret tt
  | stream :: rest => handleMessages w (Messages stream);; dispatch w rest
  end.

(** Reading the log: the successful appends to a stream, and the
    acknowledgements issued. *)
Definition appendsTo (stream : string) (tr : list Call) : list Payload :=
  omap (λ c, match c with
             | XAdd s data None => if decide (s = stream) then Some data else None
             | _ => None
             end) tr.

Definition appendCalls (tr : list Call) : list (string * Payload) :=
  omap (λ c, match c with XAdd s data _ => Some (s, data) | _ => None end) tr.

Definition acks (tr : list Call) : list (string * string * string) :=
  omap (λ c, match c with
             | XAck s g i _ => Some (s, g, i)
             | _ => None
             end) tr.

(** "Non-broker failures": the broker accepts every append. *)
Definition brokerUp (w : Worker) : Prop :=
  ∀ stream data, redisXAdd w stream data = None.

End worker.
Import worker.
(** ** Package [config] (the worker's settings, read from the environment)

    Go [int] and [time.Duration] values are integers that are only compared
    here, never computed with; they are [Z]. *)
Module config.

Record Config := {
  WorkerID : string;
  RedisAddr : string;
  RedisPassword : string;
  RedisDB : Z;
  StreamKey : string;
  ConsumerGroup : string;
  ResultStream : string;
  BlockTime : Z;
  MaxRetries : Z;
  LLMProvider : string;
  LLMAPIKey : string;
  LLMModel : string;
  LLMTimeout : Z;
  CELEnabled : bool;
  HealthPort : Z;
  LogLevel : string;
}.

(** isValidLogLevel: a lookup in a map literal; a missing key reads as
    [false]. *)
Definition isValidLogLevel (level : string) : bool :=
  let validLevels : gmap string bool :=
    <["debug" := true]> (<["info" := true]> (<["warn" := true]>
      (<["error" := true]> ∅))) in
  default false (validLevels !! level).

(** Validate; [None] is the nil error. *)
Definition Validate (c : Config) : option string :=
  if String.eqb (WorkerID c) "" then Some "WORKER_ID is required"
  else if String.eqb (RedisAddr c) "" then Some "REDIS_ADDR is required"
  else if String.eqb (StreamKey c) "" then Some "STREAM_KEY is required"
  else if String.eqb (ConsumerGroup c) "" then Some "CONSUMER_GROUP is required"
  else if String.eqb (ResultStream c) "" then Some "RESULT_STREAM is required"
  else if String.eqb (LLMProvider c) "" then Some "LLM_PROVIDER is required"
  else if String.eqb (LLMModel c) "" then Some "LLM_MODEL is required"
  else if (LLMTimeout c <=? 0)%Z then Some "LLM_TIMEOUT must be positive"
  else if (BlockTime c <=? 0)%Z then Some "BLOCK_TIME must be positive"
  else if (MaxRetries c <? 0)%Z then Some "MAX_RETRIES must be non-negative"
  else if (HealthPort c <=? 0)%Z || (HealthPort c >? 65535)%Z then
    Some "HEALTH_PORT must be between 1 and 65535"
  else if negb (isValidLogLevel (LogLevel c)) then
    Some "LOG_LEVEL must be one of: debug, info, warn, error"
  else None.

(** Load, from what [env.Parse] produced. *)
Definition Load (parsed : result Config) : result Config :=
  match parsed with
  | Err err => Err ("failed to parse config: " ++ err)
  | Ok cfg =>
      match Validate cfg with
      | Some err => Err ("invalid config: " ++ err)
      | None => Ok cfg
      end
  end.

(** The [envDefault] tags; durations in nanoseconds. *)
Definition defaults : Config :=
  {| WorkerID := "router-1"; RedisAddr := "localhost:6379"; RedisPassword := "";
     RedisDB := 0; StreamKey := "router.work"; ConsumerGroup := "router-workers";
     ResultStream := "router.decided"; BlockTime := 1000000000; MaxRetries := 3;
     LLMProvider := "anthropic"; LLMAPIKey := "";
     LLMModel := "claude-sonnet-4-20250514"; LLMTimeout := 30000000000;
     CELEnabled := true; HealthPort := 8082; LogLevel := "info" |}.

End config.

(** ** [cmd/router-worker]: the Redis-backed state store

    The Redis server is its key space and, when it cannot be reached, the
    error every command then returns.  Expiry is not modelled. *)
Module statestore.

Record Redis := {
  kv : gmap string string;
  down : option string;
}.

(** A reply of [Get]: a value, [redis.Nil], or another error. *)
Inductive GetReply : Type :=
  | GetValue (v : string)
  | GetNil
  | GetErr (e : string).

Definition redisSet (rd : Redis) (key val : string) : option string * Redis :=
  match down rd with
  | Some e => (Some e, rd)
  | None => (None, {| kv := <[key := val]> (kv rd); down := None |})
  end.

Definition redisGet (rd : Redis) (key : string) : GetReply :=
  match down rd with
  | Some e => GetErr e
  | None => match kv rd !! key with
            | Some v => GetValue v
            | None => GetNil
            end
  end.

Definition redisDel (rd : Redis) (key : string) : option string * Redis :=
  match down rd with
  | Some e => (Some e, rd)
  | None => (None, {| kv := delete key (kv rd); down := None |})
  end.

(** [Exists key]: how many of the given keys exist. *)
Definition redisExists (rd : Redis) (key : string) : result Z :=
  match down rd with
  | Some e => Err e
  | None => Ok (match kv rd !! key with Some _ => 1%Z | None => 0%Z end)
  end.

(** [Keys (prefix ++ "*")] for a prefix without glob characters. *)
Definition redisKeys (rd : Redis) (prefix : string) : result (list string) :=
  match down rd with
  | Some e => Err e
  | None => Ok (filter (λ key, String.prefix prefix key = true)
                       (map_to_list (kv rd)).*1)
  end.

(** [encoding/json] on [state.State]. *)
Record Codec := {
  marshal : gmap string Value → result string;
  unmarshal : string → result (gmap string Value);
}.

(** An [interface{}] value by its dynamic type: a [map[string]interface{}];
    a [state.State], the named type with that underlying type; or a value
    of another type, given by the name [%T] prints for it. *)
Inductive Any : Type :=
  | AnyMap (m : gmap string Value)
  | AnyState (st : gmap string Value)
  | AnyOther (typeName : string).

(** [fmt.Sprintf("graph:state:%s", executionID)] *)
Definition stateKey (executionID : string) : string :=
  "graph:state:" ++ executionID.

(** [key[n:]] *)
Fixpoint sliceFrom (n : nat) (s : string) : string :=
  match n, s with
  | O, _ => s
  | S n', String _ s' => sliceFrom n' s'
  | S _, EmptyString => EmptyString
  end.

(** main.go, RedisStateStore.Save *)
Definition Save (cd : Codec) (rd : Redis) (executionID : string)
    (st : gmap string Value) : option string * Redis :=
  let key := stateKey executionID in
  match marshal cd st with
  | Err err => (Some ("failed to marshal state: " ++ err), rd)
  | Ok data =>
      match redisSet rd key data with
      | (Some err, rd') => (Some ("failed to save state: " ++ err), rd')
      | (None, rd') => (None, rd')
      end
  end.

(** main.go, RedisStateStore.Load *)
Definition Load (cd : Codec) (rd : Redis) (executionID : string)
  : result (gmap string Value) :=
  let key := stateKey executionID in
  match redisGet rd key with
  | GetNil => Err ("state not found for execution " ++ executionID)
  | GetErr err => Err ("failed to load state: " ++ err)
  | GetValue data =>
      match unmarshal cd data with
      | Err err => Err ("failed to unmarshal state: " ++ err)
      | Ok st => Ok st
      end
  end.

(** main.go, RedisStateStore.Delete *)
Definition Delete (rd : Redis) (executionID : string) : option string * Redis :=
  match redisDel rd (stateKey executionID) with
  | (Some err, rd') => (Some ("failed to delete state: " ++ err), rd')
  | (None, rd') => (None, rd')
  end.

(** main.go, RedisStateStore.Exists *)
Definition Exists (rd : Redis) (executionID : string) : result bool :=
  match redisExists rd (stateKey executionID) with
  | Err err => Err ("failed to check existence: " ++ err)
  | Ok n => Ok (n >? 0)%Z
  end.

(** The loop of [List]: keys longer than the prefix give an id. *)
Fixpoint extractIDs (prefix : string) (keys : list string) : list string :=
  match keys with
  | [] => []
  | key :: rest =>
      if (String.length prefix <? String.length key)%nat
      then sliceFrom (String.length prefix) key :: extractIDs prefix rest
      else extractIDs prefix rest
  end.

(** main.go, RedisStateStore.List *)
Definition List (rd : Redis) : result (list string) :=
  match redisKeys rd "graph:state:" with
  | Err err => Err ("failed to list keys: " ++ err)
  | Ok keys => Ok (extractIDs "graph:state:" keys)
  end.

(** main.go, RedisStateStore.SaveState: the type assertion
    [st.(map[string]interface{})] holds for that type only, not for the
    named type [state.State]. *)
Definition SaveState (cd : Codec) (rd : Redis) (st : Any)
  : option string * Redis :=
  match st with
  | AnyMap stateMap =>
      match stateMap !! "graph_id" with
      | Some (VStr executionID) => Save cd rd executionID stateMap
      | _ =>
          match stateMap !! "execution_id" with
          | Some (VStr executionID) => Save cd rd executionID stateMap
          | _ => (Some "state missing graph_id or execution_id field", rd)
          end
      end
  | AnyState _ => (Some "expected map[string]interface{}, got state.State", rd)
  | AnyOther typeName =>
      (Some ("expected map[string]interface{}, got " ++ typeName), rd)
  end.

(** main.go, RedisStateStore.GetState: the loaded [state.State], as an
    [interface{}]. *)
Definition GetState (cd : Codec) (rd : Redis) (graphID : string)
  : result Any :=
  match Load cd rd graphID with
  | Err err => Err err
  | Ok st => Ok (AnyState st)
  end.

End statestore.
(** ** Package [template]: the engine and its cache of parsed templates

    The Handlebars library is a record of its two operations, over its own
    type of parsed templates. *)
Module template.

Record Lib (Template : Type) := {
  Parse : string → result Template;
  Exec : Template → gmap string Value → result string;
}.
Arguments Parse {Template} _ _.
Arguments Exec {Template} _ _ _.

(** engine.go, getTemplate, run by one goroutine: the result and the cache
    afterwards. *)
Definition getTemplate {Template} (lib : Lib Template)
    (cache : gmap string Template) (templateStr : string)
  : result Template * gmap string Template :=
  match cache !! templateStr with
  | Some tmpl => (Ok tmpl, cache)
  | None =>
      match Parse lib templateStr with
      | Err err => (Err ("parse error: " ++ err), cache)
      | Ok tmpl => (Ok tmpl, <[templateStr := tmpl]> cache)
      end
  end.

(** engine.go, Render *)
Definition Render {Template} (lib : Lib Template)
    (cache : gmap string Template) (templateStr : string)
    (data : gmap string Value) : result string * gmap string Template :=
  match getTemplate lib cache templateStr with
  | (Err err, cache') => (Err ("failed to compile template: " ++ err), cache')
  | (Ok tmpl, cache') =>
      match Exec lib tmpl data with
      | Err err => (Err ("template execution failed: " ++ err), cache')
      | Ok res => (Ok res, cache')
      end
  end.

(** engine.go, ValidateTemplate *)
Definition ValidateTemplate {Template} (lib : Lib Template)
    (templateStr : string) : option string :=
  match Parse lib templateStr with
  | Err err => Some err
  | Ok _ => None
  end.

End template.

(** ** Package [worker], health.go: the two probe handlers, as the status
    code and body they answer for a given result of the Redis ping. *)
Module health.

Record HealthResponse := {
  Status_ : string;
  Checks : gmap string string;
}.

Definition StatusOK : Z := 200.
Definition StatusServiceUnavailable : Z := 503.

(** health.go, handleHealth; [ping] is the error of [Ping], if any. *)
Definition handleHealth (ping : option string) : Z * HealthResponse :=
  let checks : gmap string string := ∅ in
  match ping with
  | Some err =>
      let checks := <["redis" := "unhealthy: " ++ err]> checks in
      (StatusServiceUnavailable, {| Status_ := "unhealthy"; Checks := checks |})
  | None =>
      let checks := <["redis" := "healthy"]> checks in
      (StatusOK, {| Status_ := "healthy"; Checks := checks |})
  end.

(** health.go, handleReady *)
Definition handleReady (ping : option string) : Z * HealthResponse :=
  match ping with
  | Some _ => (StatusServiceUnavailable, {| Status_ := "not ready"; Checks := ∅ |})
  | None => (StatusOK, {| Status_ := "ready"; Checks := ∅ |})
  end.

End health.
(** * Properties *)

(** ** Concrete collaborators used in the examples below *)

(** A CEL library over toy types: a program is the text it was compiled
    from; only "true", "false" and "1" compile, and evaluate to those
    values; as in cel-go, converting a value at the nil descriptor
    panics. *)
Definition exampleCel : cel.Env :=
  {| cel.Ast := string;
     cel.Program := string;
     cel.Val := Value;
     cel.Compile := λ e,
       if String.eqb e "true" then Ok e
       else if String.eqb e "false" then Ok e
       else if String.eqb e "1" then Ok e
       else Err "undeclared reference";
     cel.MakeProgram := λ ast, Ok ast;
     cel.Eval := λ program _,
       Ok (if String.eqb program "true" then VBool true
           else if String.eqb program "false" then VBool false
           else VNum 1);
     cel.ConvertToNative := λ out typeDesc,
       match typeDesc with
       | None => cel.ConvertPanic
       | Some _ => cel.ConvertedTo out
       end;
     cel.nilDescriptor := λ out v H, eq_ind cel.ConvertPanic
       (λ c, match c with cel.ConvertPanic => True | _ => False end) I _ H |}.

(** A template engine that rejects one template and echoes the others. *)
Definition exampleRender (template : string) (data : gmap string Value)
  : result string :=
  if String.eqb template "{{#if}}" then Err "parse error" else Ok template.

Definition exampleRouter (client : option (LLMRequest → Completion)) : Router :=
  {| celEvaluator := exampleCel;
     templateEngine := exampleRender;
     llmClient := client;
     stringsLib := GoStrings.asciiLib;
     rangeEqualFold := map_to_list;
     rangeContains := map_to_list |}.

(** The same collaborators under a runtime that visits maps in the opposite
    order. *)
Definition reversedRouter (client : option (LLMRequest → Completion)) : Router :=
  {| celEvaluator := exampleCel;
     templateEngine := exampleRender;
     llmClient := client;
     stringsLib := GoStrings.asciiLib;
     rangeEqualFold := λ routes, reverse (map_to_list routes);
     rangeContains := λ routes, reverse (map_to_list routes) |}.

Definition emptyState : GraphState :=
  {| GraphID := "g"; Status := "running"; Inputs := ∅; NodeStates := ∅ |}.

Definition mkRule (c t : string) : Rule := {| Condition := c; Target := t |}.

Definition deterministicConfig (rules : list Rule) (fallback : string) : NodeConfig :=
  {| Mode := ModeDeterministic; Rules := rules; FastRules := [];
     LLMConfig_ := None; LLMFallback := None; Fallback := fallback;
     Config := ∅ |}.

Definition llmConfig (template : string) (routes : gmap string string)
    (fallback : string) : NodeConfig :=
  {| Mode := ModeLLM; Rules := []; FastRules := [];
     LLMConfig_ := Some {| PromptTemplate := template; Routes := routes |};
     LLMFallback := None; Fallback := fallback; Config := ∅ |}.

Definition hybridConfig (fast : list Rule) (template : string)
    (routes : gmap string string) (fallback : string) : NodeConfig :=
  {| Mode := ModeHybrid; Rules := []; FastRules := fast;
     LLMConfig_ := None;
     LLMFallback := Some {| PromptTemplate := template; Routes := routes |};
     Fallback := fallback; Config := ∅ |}.

(** A concrete worker: the broker accepts everything, the store holds the
    state of "exec-1" only, JSON decoding accepts the texts "ok" (a request
    for "exec-1") and "ok2" (a request for "exec-2"), and every request
    carries the routing config [nodeConfig]. *)
Definition workerDecoding (nodeConfig : NodeConfig) : Worker :=
  {| id := "router-1"; streamKey := "router.work";
     consumerGroup := "router-workers"; resultStream := "router.decided";
     router_ := exampleRouter None;
     stateStoreLoad := λ executionID,
       if String.eqb executionID "exec-1" then Ok ∅ else Err "not found";
     jsonMarshal := λ _, Ok "{}";
     jsonUnmarshalWorkRequest := λ s,
       if String.eqb s "ok"
       then Ok {| ExecutionID := "exec-1"; NodeID := "n"; Config_ := ∅ |}
       else if String.eqb s "ok2"
       then Ok {| ExecutionID := "exec-2"; NodeID := "n"; Config_ := ∅ |}
       else Err "invalid character";
     jsonUnmarshalGraphState := λ _, Ok emptyState;
     jsonUnmarshalNodeConfig := λ _, Ok nodeConfig;
     redisXAdd := λ _ _, None;
     redisXAck := λ _ _ _, None;
     now := 0 |}.

(** Its requests carry one rule, over a variable that is not declared. *)
Definition exampleWorker : Worker :=
  workerDecoding (deterministicConfig [mkRule "nosuch.x > 1" "A"] "D").

(** Its requests carry one rule, which evaluates to [true]. *)
Definition evaluatingWorker : Worker :=
  workerDecoding (deterministicConfig [mkRule "true" "A"] "D").

Definition entry (entryID data : string) : XMessage :=
  {| ID := entryID; Values := {[ "data" := VStr data ]} |}.

(** The example worker facing a broker that refuses every call. *)
Definition brokerDownWorker : Worker :=
  {| id := id exampleWorker; streamKey := streamKey exampleWorker;
     consumerGroup := consumerGroup exampleWorker;
     resultStream := resultStream exampleWorker;
     router_ := router_ exampleWorker;
     stateStoreLoad := stateStoreLoad exampleWorker;
     jsonMarshal := jsonMarshal exampleWorker;
     jsonUnmarshalWorkRequest := jsonUnmarshalWorkRequest exampleWorker;
     jsonUnmarshalGraphState := jsonUnmarshalGraphState exampleWorker;
     jsonUnmarshalNodeConfig := jsonUnmarshalNodeConfig exampleWorker;
     redisXAdd := λ _ _, Some "connection refused";
     redisXAck := λ _ _ _, Some "connection refused";
     now := 0 |}.

(** The example worker over stored states that carry no graph id. *)
Definition noGraphIDWorker : Worker :=
  {| id := id exampleWorker; streamKey := streamKey exampleWorker;
     consumerGroup := consumerGroup exampleWorker;
     resultStream := resultStream exampleWorker;
     router_ := router_ exampleWorker;
     stateStoreLoad := stateStoreLoad exampleWorker;
     jsonMarshal := jsonMarshal exampleWorker;
     jsonUnmarshalWorkRequest := jsonUnmarshalWorkRequest exampleWorker;
     jsonUnmarshalGraphState := λ _,
       Ok {| GraphID := ""; Status := "running"; Inputs := ∅; NodeStates := ∅ |};
     jsonUnmarshalNodeConfig := jsonUnmarshalNodeConfig exampleWorker;
     redisXAdd := redisXAdd exampleWorker;
     redisXAck := redisXAck exampleWorker;
     now := 0 |}.

(** The example worker wired, as in [main], to the Redis-backed store. *)
Definition storeWorker (cd : statestore.Codec) (rd : statestore.Redis) : Worker :=
  {| id := id exampleWorker; streamKey := streamKey exampleWorker;
     consumerGroup := consumerGroup exampleWorker;
     resultStream := resultStream exampleWorker;
     router_ := router_ exampleWorker;
     stateStoreLoad := statestore.Load cd rd;
     jsonMarshal := jsonMarshal exampleWorker;
     jsonUnmarshalWorkRequest := jsonUnmarshalWorkRequest exampleWorker;
     jsonUnmarshalGraphState := jsonUnmarshalGraphState exampleWorker;
     jsonUnmarshalNodeConfig := jsonUnmarshalNodeConfig exampleWorker;
     redisXAdd := redisXAdd exampleWorker;
     redisXAck := redisXAck exampleWorker;
     now := 0 |}.

(** A template library over toy types: a template is its text, rendered as
    itself; "{{#if}}" does not parse. *)
Definition exampleTemplateLib : template.Lib string :=
  {| template.Parse := λ t,
       if String.eqb t "{{#if}}" then Err "parse error" else Ok t;
     template.Exec := λ tmpl _, Ok tmpl |}.

(** A codec over toy JSON: every state is written as the text "{}", which
    reads back as the state [st]. *)
Definition codecReading (st : gmap string Value) : statestore.Codec :=
  {| statestore.marshal := λ _, Ok "{}";
     statestore.unmarshal := λ s,
       if String.eqb s "{}" then Ok st else Err "unexpected end of JSON input" |}.

Definition exampleCodec : statestore.Codec := codecReading ∅.

Definition emptyRedis : statestore.Redis :=
  {| statestore.kv := ∅; statestore.down := None |}.

(** ** Vocabulary of the statements *)

(** Evaluating the rule's condition returns an error: the rule is skipped. *)
Definition ruleFails (r : Router) (celState : gmap string Value) (rule : Rule)
  : Prop :=
  ∃ err, celEvaluate r (Condition rule) celState = Return (Err err).

(** The rules a config's strategy walks through. *)
Definition activeRules (config : NodeConfig) : list Rule :=
  if String.eqb (Mode config) ModeHybrid then FastRules config else Rules config.

(** The response as [matchLLMResponse] compares it: lowercased, then
    trimmed. *)
Definition normalize (r : Router) (response : string) : string :=
  GoStrings.TrimSpace (stringsLib r) (GoStrings.ToLower (stringsLib r) response).

(** [target] belongs to the first entry of the visiting order [order] whose
    key satisfies [p]. *)
Definition firstInOrder (p : string → bool) (order : list (string * string))
    (target : string) : Prop :=
  ∃ i key, order !! i = Some (key, target) ∧ p key = true ∧
           ∀ j kj tj, (j < i)%nat → order !! j = Some (kj, tj) → p kj = false.

(** At most one key of the map satisfies [p]. *)
Definition atMostOneKey (p : string → bool) (routes : gmap string string) : Prop :=
  ∀ k1 k2, k1 ∈ dom routes → k2 ∈ dom routes →
           p k1 = true → p k2 = true → k1 = k2.

(** An [*LLMConfig] that is set, with a template and at least one route. *)
Definition llmSpecOk (lc : option LLMConfig) : Prop :=
  ∃ c, lc = Some c ∧ PromptTemplate c ≠ "" ∧ size (Routes c) ≠ 0%nat.

(** An iteration order the runtime may pick: some permutation of the
    entries of the map. *)
Definition validRange (order : RangeOrder) : Prop :=
  ∀ routes, order routes ≡ₚ map_to_list routes.

(** Every target named in a routes map of the config is non-empty. *)
Definition routeTargetsNonEmpty (c : NodeConfig) : Prop :=
  ∀ lc key target,
    LLMConfig_ c = Some lc ∨ LLMFallback c = Some lc →
    Routes lc !! key = Some target → target ≠ "".

(** Every cached program is the one compiling its expression gives. *)
Definition celCacheSound (env : cel.Env) (cache : gmap string (cel.Program env))
  : Prop :=
  ∀ expression program,
    cache !! expression = Some program →
    ∃ ast, cel.Compile env expression = Ok ast ∧
           cel.MakeProgram env ast = Ok program.

(** Every cached template is the one parsing its text gives. *)
Definition templateCacheSound {Template} (lib : template.Lib Template)
    (cache : gmap string Template) : Prop :=
  ∀ templateStr tmpl,
    cache !! templateStr = Some tmpl → template.Parse lib templateStr = Ok tmpl.


(** Handling the entry reaches [Route], and [Route] panics there. *)
Definition routingPanics (w : Worker) (message : XMessage) : bool :=
  match parseWorkRequest w (Values message) with
  | Err _ => false
  | Ok request =>
      match stateStoreLoad w (ExecutionID request) with
      | Err _ => false
      | Ok stateData =>
          match convertToGraphState w (ExecutionID request) stateData with
          | Err _ => false
          | Ok graphState =>
              match parseNodeConfig w (Config_ request) with
              | Err _ => false
              | Ok nodeConfig =>
                  match Route (router_ w) graphState (Some nodeConfig) with
                  | Panicked => true
                  | Returned _ => false
                  end
              end
          end
      end
  end.
(** ** The evaluator never hands back a value *)

Lemma Evaluate_never_value (env : cel.Env) cache expression vars v :
  (cel.Evaluate env cache expression vars).1 ≠ Return (Ok v).
Proof.
  unfold cel.Evaluate.
  destruct (cel.getProgram env cache expression) as [[program|e] cache']; [|done].
  destruct (cel.Eval env program vars) as [out|e]; [|done].
  destruct (cel.ConvertToNative env out None) as [res| |] eqn:Hc; try done.
  by destruct (cel.nilDescriptor env out res).
Qed.

Lemma celEvaluate_never_value r expression vars v :
  celEvaluate r expression vars ≠ Return (Ok v).
Proof. apply Evaluate_never_value. Qed.

(** ** The rule loop *)

Section RuleLoop.
Context (r : Router) (celState : gmap string Value).
Context (mk : nat → Rule → RoutingResult).

(** No rule ever matches. *)
Lemma ruleLoop_never_matches (rules : list Rule) : ∀ i res,
  ruleLoop r celState mk i rules ≠ Return (Some res).
Proof.
  induction rules as [|r0 rest IH]; intros i res; [done|].
  simpl.
  destruct (celEvaluate r (Condition r0) celState) as [[v|e]|] eqn:He;
    [|by apply IH | done].
  by destruct (celEvaluate_never_value _ _ _ _ He).
Qed.

Lemma ruleLoop_all_fail (rules : list Rule) : ∀ i,
  (∀ rule, rule ∈ rules → ruleFails r celState rule) →
  ruleLoop r celState mk i rules = Return None.
Proof.
  induction rules as [|r0 rest IH]; intros i Hall; [done|].
  destruct (Hall r0) as [e He]; [left|].
  simpl. rewrite He. apply IH. intros rule Hin. apply Hall. by right.
Qed.

(** The loop runs to its end only when every rule failed to evaluate. *)
Lemma ruleLoop_completes (rules : list Rule) : ∀ i,
  ruleLoop r celState mk i rules = Return None →
  ∀ rule, rule ∈ rules → ruleFails r celState rule.
Proof.
  induction rules as [|r0 rest IH]; intros i Hloop rule Hin.
  { by apply elem_of_nil in Hin. }
  simpl in Hloop.
  destruct (celEvaluate r (Condition r0) celState) as [[v|e]|] eqn:He;
    [by destruct (celEvaluate_never_value _ _ _ _ He) | | done].
  apply elem_of_cons in Hin as [-> | Hin]; [by exists e | by eapply IH].
Qed.

(** The loop panics at the first rule that does not fail, when evaluating
    that rule panics. *)
Lemma ruleLoop_panics (rules : list Rule) : ∀ i n rule,
  rules !! n = Some rule →
  celEvaluate r (Condition rule) celState = Panics →
  (∀ j rj, (j < n)%nat → rules !! j = Some rj → ruleFails r celState rj) →
  ruleLoop r celState mk i rules = Panics.
Proof.
  induction rules as [|r0 rest IH]; intros i n rule Hn Hp Hbefore; [done|].
  destruct n as [|n]; simpl in Hn.
  - injection Hn as ->. simpl. by rewrite Hp.
  - destruct (Hbefore 0%nat r0) as [e He]; [lia | done |].
    simpl. rewrite He. apply (IH _ n rule); [done..|].
    intros j rj Hj Hl. apply (Hbefore (S j)); [lia | done].
Qed.

End RuleLoop.

(** ** Modes *)

Lemma mode_cases (m : string) :
  (String.eqb m ModeDeterministic = true ∧ m = ModeDeterministic) ∨
  (String.eqb m ModeDeterministic = false ∧ String.eqb m ModeLLM = true ∧ m = ModeLLM) ∨
  (String.eqb m ModeDeterministic = false ∧ String.eqb m ModeLLM = false ∧
   String.eqb m ModeHybrid = true ∧ m = ModeHybrid) ∨
  (String.eqb m ModeDeterministic = false ∧ String.eqb m ModeLLM = false ∧
   String.eqb m ModeHybrid = false).
Proof.
  destruct (String.eqb_spec m ModeDeterministic); [by left|].
  destruct (String.eqb_spec m ModeLLM); [right; by left|].
  destruct (String.eqb_spec m ModeHybrid); [right; right; by left|].
  right; right; right. done.
Qed.

Lemma Route_deterministic r state config :
  Mode (resolveMode config) = ModeDeterministic →
  Route r state (Some config) = routeDeterministic r state (resolveMode config).
Proof. intros H. unfold Route. by rewrite H. Qed.

Lemma Route_llm r state config :
  Mode (resolveMode config) = ModeLLM →
  Route r state (Some config) = routeLLM r state (resolveMode config).
Proof. intros H. unfold Route. by rewrite H. Qed.

Lemma Route_hybrid r state config :
  Mode (resolveMode config) = ModeHybrid →
  Route r state (Some config) = routeHybrid r state (resolveMode config).
Proof. intros H. unfold Route. by rewrite H. Qed.

Lemma resolveMode_Fallback config : Fallback (resolveMode config) = Fallback config.
Proof. unfold resolveMode. by destruct (String.eqb _ _). Qed.

Lemma resolveMode_Rules config : Rules (resolveMode config) = Rules config.
Proof. unfold resolveMode. by destruct (String.eqb _ _). Qed.

(** ** Validation *)

Lemma validateRules_None (rules : list Rule) : ∀ i,
  validateRules i rules = None ↔
  Forall (λ rule, Condition rule ≠ "" ∧ Target rule ≠ "") rules.
Proof.
  induction rules as [|r0 rest IH]; intros i; simpl.
  - split; [constructor | done].
  - destruct (String.eqb_spec (Condition r0) "") as [Hc|Hc].
    { split; [done|]. intros H. inversion H; subst. tauto. }
    destruct (String.eqb_spec (Target r0) "") as [Ht|Ht].
    { split; [done|]. intros H. inversion H; subst. tauto. }
    rewrite IH. split.
    + intros H. by constructor.
    + intros H. by inversion H.
Qed.

(** What [validateConfig] accepts, mode by mode.  In hybrid mode the fast
    rules are only required to be present: their conditions and targets are
    not looked at. *)
Lemma validateConfig_accepts (c : NodeConfig) :
  validateConfig (Some c) = None ↔
  Fallback c ≠ "" ∧
  (Mode c = ModeDeterministic →
     Rules c ≠ [] ∧ Forall (λ rule, Condition rule ≠ "" ∧ Target rule ≠ "") (Rules c)) ∧
  (Mode c = ModeLLM → llmSpecOk (LLMConfig_ c)) ∧
  (Mode c = ModeHybrid → FastRules c ≠ [] ∧ llmSpecOk (LLMFallback c)).
Proof.
  unfold validateConfig, llmSpecOk.
  destruct (String.eqb_spec (Fallback c) "") as [Hf|Hf].
  { split; [done | tauto]. }
  destruct (mode_cases (Mode c)) as
    [[-> Hm] | [(-> & -> & Hm) | [(-> & -> & -> & Hm) | (H1 & H2 & H3)]]].
  - rewrite <- (validateRules_None (Rules c) 0).
    destruct (Rules c) as [|r0 rest] eqn:Hr; simpl length; simpl Nat.eqb.
    + split; [done|]. intros (_ & H & _). by destruct (H Hm).
    + split.
      * intros H. split; [done|]. rewrite Hm.
        split; [done|]. split; intros; discriminate.
      * intros (_ & H & _). by destruct (H Hm).
  - destruct (LLMConfig_ c) as [lc|].
    2:{ split; [done|]. intros (_ & _ & H & _). by destruct (H Hm) as (? & ? & _). }
    destruct (String.eqb_spec (PromptTemplate lc) "") as [Hp|Hp].
    { split; [done|]. intros (_ & _ & H & _).
      destruct (H Hm) as (? & [= <-] & ? & _). done. }
    destruct (Nat.eqb_spec (size (Routes lc)) 0) as [Hs|Hs].
    { split; [done|]. intros (_ & _ & H & _).
      destruct (H Hm) as (? & [= <-] & _ & ?). done. }
    split; [|done]. intros _. split; [done|]. rewrite Hm.
    split; [discriminate|]. split; [by eauto | discriminate].
  - destruct (FastRules c) as [|r0 rest]; simpl length; simpl Nat.eqb.
    { split; [done|]. intros (_ & _ & _ & H). by destruct (H Hm). }
    destruct (LLMFallback c) as [lc|].
    2:{ split; [done|]. intros (_ & _ & _ & H).
        by destruct (H Hm) as (_ & ? & ? & _). }
    destruct (String.eqb_spec (PromptTemplate lc) "") as [Hp|Hp].
    { split; [done|]. intros (_ & _ & _ & H).
      destruct (H Hm) as (_ & ? & [= <-] & ? & _). done. }
    destruct (Nat.eqb_spec (size (Routes lc)) 0) as [Hs|Hs].
    { split; [done|]. intros (_ & _ & _ & H).
      destruct (H Hm) as (_ & ? & [= <-] & _ & ?). done. }
    split; [|done]. intros _. split; [done|]. rewrite Hm.
    split; [discriminate|]. split; [discriminate|]. by eauto.
  - rewrite H1, H2, H3. split; [|done]. intros _. split; [done|].
    split; [|split]; intros E; rewrite E in *; discriminate.
Qed.

(** ** Scenarios of the specification on the example library *)

(** S3's broken rule, alone: it is skipped and the fallback is taken. *)
Example route_broken_rule :
  Route (exampleRouter None) emptyState
        (Some (deterministicConfig [mkRule "nosuch.x > 1" "A"] "D"))
  = Returned (Ok {| TargetNode := "D"; Reasoning := "no rules matched";
                    Mode_ := "deterministic"; PathTaken := "fallback" |}).
Proof. vm_compute. reflexivity. Qed.

(** A nil config never reaches [validateConfig] through [Route]. *)
Example route_nil_config :
  Route (exampleRouter None) emptyState None = Panicked ∧
  validateConfig None = Some "config is nil".
Proof. done. Qed.

(** ** Order-first match *)

(** [C1] Where the specification has the first rule whose condition is [true]
    decide the target, the engine panics: [Evaluate] converts the value of
    the condition with a nil type descriptor.  (1) No decision [Route]
    returns is on the fast path.  (2) For a config that passes validation in
    deterministic or hybrid mode, when the first rule whose evaluation does
    not fail is one whose value is then converted with a panic, [Route]
    panics.  (3) On the example library the condition "true" evaluates to
    the CEL value [true], and [Route] panics on the one-rule deterministic
    and hybrid configs with that condition. *)
Theorem first_true_rule_panics :
  (∀ r state config d,
     Route r state (Some config) = Returned (Ok d) → PathTaken d ≠ "fast") ∧
  (∀ r state config celState n rule,
     let c := resolveMode config in
     validateConfig (Some c) = None →
     Mode c = ModeDeterministic ∨ Mode c = ModeHybrid →
     prepareStateForCEL state = Return celState →
     activeRules c !! n = Some rule →
     celEvaluate r (Condition rule) celState = Panics →
     (∀ j rj, (j < n)%nat → activeRules c !! j = Some rj →
              ruleFails r celState rj) →
     Route r state (Some config) = Panicked) ∧
  (∀ vars, cel.Eval exampleCel "true" vars = Ok (VBool true)) ∧
  Route (exampleRouter None) emptyState
        (Some (deterministicConfig [mkRule "true" "urgent"] "default"))
  = Panicked ∧
  Route (exampleRouter None) emptyState
        (Some (hybridConfig [mkRule "true" "big"] "p" {[ "yes" := "Y" ]} "std"))
  = Panicked.
Proof.
  split_and!.
  - intros r state config d HRoute.
    set (c := resolveMode config) in *.
    destruct (mode_cases (Mode c)) as
      [[_ Hm] | [(_ & _ & Hm) | [(_ & _ & _ & Hm) | (H1 & H2 & H3)]]].
    + rewrite (Route_deterministic _ _ _ Hm) in HRoute. fold c in HRoute.
      unfold routeDeterministic in HRoute.
      destruct (validateConfig _); [done|].
      destruct (prepareStateForCEL state) as [celState|]; [|done].
      destruct (ruleLoop _ _ _ _ _) as [[res|]|] eqn:Hloop; [| |done].
      * by destruct (ruleLoop_never_matches _ _ _ _ _ _ Hloop).
      * by injection HRoute as <-.
    + rewrite (Route_llm _ _ _ Hm) in HRoute. fold c in HRoute.
      unfold routeLLM in HRoute.
      repeat case_match; simplify_eq; done.
    + rewrite (Route_hybrid _ _ _ Hm) in HRoute. fold c in HRoute.
      unfold routeHybrid in HRoute.
      destruct (validateConfig _); [done|].
      destruct (prepareStateForCEL state) as [celState|]; [|done].
      destruct (ruleLoop _ _ _ _ _) as [[res|]|] eqn:Hloop; [| |done].
      * by destruct (ruleLoop_never_matches _ _ _ _ _ _ Hloop).
      * repeat case_match; simplify_eq; done.
    + unfold Route in HRoute. fold c in HRoute. by rewrite H1, H2, H3 in HRoute.
  - intros r state config celState n rule c Hvalid Hmode Hprep Hn Hp Hbefore.
    unfold activeRules in Hn, Hbefore.
    destruct Hmode as [Hm | Hm].
    + rewrite (Route_deterministic _ _ _ Hm). fold c.
      unfold routeDeterministic. rewrite Hvalid, Hprep.
      rewrite Hm in Hn, Hbefore. simpl in Hn, Hbefore.
      by erewrite ruleLoop_panics.
    + rewrite (Route_hybrid _ _ _ Hm). fold c.
      unfold routeHybrid. rewrite Hvalid, Hprep.
      rewrite Hm in Hn, Hbefore. simpl in Hn, Hbefore.
      by erewrite ruleLoop_panics.
  - done.
  - vm_compute. reflexivity.
  - vm_compute. reflexivity.
Qed.

(** [C3] A hybrid config whose only fast rule has an empty condition and an
    empty target passes [validateConfig], and no router and no state make
    [Route] refuse it; the same rule in deterministic mode is refused by
    [validateConfig] and by [Route] on every router.  On the example library
    the empty condition does not compile, the rule is skipped, and without
    a client the engine returns the fallback decision. *)
Theorem hybrid_fast_rules_not_validated :
  let fast := [mkRule "" ""] in
  let routes : gmap string string := {[ "a" := "b" ]} in
  validateConfig (Some (hybridConfig fast "p" routes "f")) = None ∧
  (∀ r state err,
     Route r state (Some (hybridConfig fast "p" routes "f")) ≠ Returned (Err err)) ∧
  validateConfig (Some (deterministicConfig fast "f"))
  = Some "rule 0: condition is required" ∧
  (∀ r state,
     Route r state (Some (deterministicConfig fast "f"))
     = Returned (Err "invalid config: rule 0: condition is required")) ∧
  Route (exampleRouter None) emptyState (Some (hybridConfig fast "p" routes "f"))
  = Returned (Ok {| TargetNode := "f";
                    Reasoning := "fast rules did not match and llm client not configured";
                    Mode_ := "hybrid"; PathTaken := "fallback" |}).
Proof.
  intros fast routes. split_and!.
  - vm_compute. reflexivity.
  - intros r state err.
    change (Route r state (Some (hybridConfig fast "p" routes "f")))
      with (routeHybrid r state (hybridConfig fast "p" routes "f")).
    unfold routeHybrid.
    assert (validateConfig (Some (hybridConfig fast "p" routes "f")) = None) as ->
      by (vm_compute; reflexivity).
    repeat case_match; done.
  - vm_compute. reflexivity.
  - intros r state. reflexivity.
  - vm_compute. reflexivity.
Qed.

(** ** Matching a model response to a route *)

Lemma rangeReturn_Some p order target :
  rangeReturn p order = Some target →
  ∃ key, (key, target) ∈ order ∧ p key = true.
Proof.
  induction order as [|[k t] rest IH]; simpl; [done|].
  destruct (p k) eqn:Hp.
  - intros [= <-]. exists k. split; [left | done].
  - intros H. destruct (IH H) as (key & Hin & Hk).
    exists key. split; [by right | done].
Qed.

Lemma rangeReturn_None p order :
  rangeReturn p order = None ↔ ∀ key target, (key, target) ∈ order → p key = false.
Proof.
  induction order as [|[k t] rest IH]; simpl.
  - split; [|done]. intros _ key target H. inversion H.
  - destruct (p k) eqn:Hp.
    + split; [done|]. intros H. rewrite (H k t) in Hp; [done | left].
    + rewrite IH. split.
      * intros H key target Hin. inversion Hin; subst; [done | by eapply H].
      * intros H key target Hin. eapply H. by right.
Qed.

Lemma rangeReturn_first p order target :
  firstInOrder p order target → rangeReturn p order = Some target.
Proof.
  intros (i & key & Hi & Hp & Hbefore).
  revert i Hi Hbefore. induction order as [|[k t] rest IH]; intros i Hi Hbefore.
  - done.
  - destruct i as [|i]; simpl in *.
    + injection Hi as -> ->. by rewrite Hp.
    + rewrite (Hbefore 0%nat k t); [|lia|done].
      apply (IH i); [done|]. intros j kj tj Hj Hl.
      apply (Hbefore (S j) kj tj); [lia | done].
Qed.

Lemma validRange_lookup order routes key target :
  validRange order →
  (key, target) ∈ order routes ↔ routes !! key = Some target.
Proof.
  intros Hv. rewrite (Hv routes). apply (elem_of_map_to_list routes key target).
Qed.

(** When at most one key satisfies [p], every iteration order returns the
    same. *)
Lemma rangeReturn_order_independent p (order1 order2 : RangeOrder) routes :
  validRange order1 → validRange order2 →
  atMostOneKey p routes →
  rangeReturn p (order1 routes) = rangeReturn p (order2 routes).
Proof.
  intros Hv1 Hv2 Hone.
  destruct (rangeReturn p (order1 routes)) as [t1|] eqn:H1;
    destruct (rangeReturn p (order2 routes)) as [t2|] eqn:H2; try done.
  - apply rangeReturn_Some in H1 as (k1 & Hin1 & Hp1).
    apply rangeReturn_Some in H2 as (k2 & Hin2 & Hp2).
    apply (validRange_lookup order1) in Hin1; [|done].
    apply (validRange_lookup order2) in Hin2; [|done].
    assert (k1 = k2) as <- by (apply Hone; [apply elem_of_dom; eauto.. | done | done]).
    congruence.
  - apply rangeReturn_Some in H1 as (k1 & Hin1 & Hp1).
    apply (validRange_lookup order1) in Hin1; [|done].
    apply (validRange_lookup order2) in Hin1; [|done].
    rewrite rangeReturn_None in H2. by rewrite (H2 _ _ Hin1) in Hp1.
  - apply rangeReturn_Some in H2 as (k2 & Hin2 & Hp2).
    apply (validRange_lookup order2) in Hin2; [|done].
    apply (validRange_lookup order1) in Hin2; [|done].
    rewrite rangeReturn_None in H1. by rewrite (H1 _ _ Hin2) in Hp2.
Qed.

(** A matched target is a value of the routes map. *)
Lemma matchLLMResponse_in_routes r response routes target :
  validRange (rangeEqualFold r) → validRange (rangeContains r) →
  matchLLMResponse r response routes = (target, true) →
  ∃ key, routes !! key = Some target.
Proof.
  intros Hv1 Hv2. unfold matchLLMResponse.
  destruct (routes !! _) as [t|] eqn:Hexact.
  { intros [= <-]. eauto. }
  destruct (rangeReturn _ (rangeEqualFold r routes)) as [t|] eqn:H1.
  { intros [= <-]. apply rangeReturn_Some in H1 as (key & Hin & _).
    exists key. by apply (validRange_lookup (rangeEqualFold r)). }
  destruct (rangeReturn _ (rangeContains r routes)) as [t|] eqn:H2; [|done].
  intros [= <-]. apply rangeReturn_Some in H2 as (key & Hin & _).
  exists key. by apply (validRange_lookup (rangeContains r)).
Qed.

Lemma Contains_empty s : GoStrings.Contains s "" = true.
Proof. by destruct s. Qed.

(** No match means that no key is contained in the normalised response. *)
Lemma match_false_none r response routes target :
  validRange (rangeContains r) →
  matchLLMResponse r response routes = (target, false) →
  target = "" ∧
  ∀ key, key ∈ dom routes →
         GoStrings.Contains (normalize r response)
                            (GoStrings.ToLower (stringsLib r) key) = false.
Proof.
  intros Hv2. unfold matchLLMResponse. fold (normalize r response).
  destruct (routes !! normalize r response); [done|].
  destruct (rangeReturn _ (rangeEqualFold r routes)); [done|].
  destruct (rangeReturn _ (rangeContains r routes)) eqn:H2; [done|].
  intros [= <-]. split; [done|].
  intros key [t Hk]%elem_of_dom.
  rewrite rangeReturn_None in H2. apply (H2 key t).
  by apply (validRange_lookup (rangeContains r)).
Qed.

Lemma reversedRouter_validRange client :
  validRange (rangeEqualFold (reversedRouter client)) ∧
  validRange (rangeContains (reversedRouter client)).
Proof. split; intros routes; simpl; apply reverse_Permutation. Qed.

(** The same response against the same routes map, under two iteration
    orders of that map: two keys are contained in the response and each
    order returns another target. *)
Lemma match_depends_on_iteration_order :
  let routes : gmap string string := <["a" := "X"]> {[ "b" := "Y" ]} in
  let client := Some (λ _ : LLMRequest, CompletionResponse "a b") in
  (rangeContains (exampleRouter client) routes ≡ₚ map_to_list routes ∧
   rangeContains (reversedRouter client) routes ≡ₚ map_to_list routes) ∧
  matchLLMResponse (exampleRouter client) "a b" routes = ("X", true) ∧
  matchLLMResponse (reversedRouter client) "a b" routes = ("Y", true) ∧
  Route (exampleRouter client) emptyState (Some (llmConfig "p" routes "f"))
  = Returned (Ok {| TargetNode := "X"; Reasoning := "llm classified as: a b";
                    Mode_ := "llm"; PathTaken := "slow" |}) ∧
  Route (reversedRouter client) emptyState (Some (llmConfig "p" routes "f"))
  = Returned (Ok {| TargetNode := "Y"; Reasoning := "llm classified as: a b";
                    Mode_ := "llm"; PathTaken := "slow" |}).
Proof.
  split; [split; [reflexivity | apply reverse_Permutation]|].
  vm_compute. done.
Qed.

(** Scenario S4: mixed case and surrounding white space. *)
Example match_mixed_case :
  matchLLMResponse (exampleRouter None) "  Technical 
" (<["technical" := "T"]> {[ "billing" := "B" ]}) = ("T", true) ∧
  matchLLMResponse (exampleRouter None) "technical"
    (<["Technical" := "T"]> {[ "billing" := "B" ]}) = ("T", true) ∧
  matchLLMResponse (exampleRouter None) "it is a billing matter"
    (<["Technical" := "T"]> {[ "Billing" := "B" ]}) = ("B", true) ∧
  matchLLMResponse (exampleRouter None) "unsure"
    (<["Technical" := "T"]> {[ "Billing" := "B" ]}) = ("", false).
Proof. vm_compute. done. Qed.

(** [C6] Matching a model response against a routes map, for any iteration
    orders the runtime picks and with Go's own [ToLower], [TrimSpace] and
    [EqualFold].  With [n] the response lowercased and trimmed: (1) when [n]
    itself is a key, its target is the result; (2) otherwise, when some key
    equals [n] under [EqualFold], the result is the target of the first such
    key in iteration order; (3) otherwise, when some lowercased key is
    contained in [n], the result is the target of the first such key in
    iteration order; (4) when [n] is no key, no key equals [n] under
    [EqualFold] and no lowercased key is contained in [n], there is no
    match.  In llm mode a match gives the mapped target with
    [path_taken = slow] and no match gives the fallback with
    [path_taken = fallback].  The result is a function of the response, the
    routes map and the iteration order; it is the same under every
    iteration order when [n] is a key, or when at most one key equals [n]
    under [EqualFold] and at most one lowercased key is contained in [n]. *)
Theorem llm_response_matching r response routes :
  validRange (rangeEqualFold r) → validRange (rangeContains r) →
  let n := normalize r response in
  let folds := λ key, GoStrings.EqualFold (stringsLib r) key n in
  let contained := λ key,
    GoStrings.Contains n (GoStrings.ToLower (stringsLib r) key) in
  (∀ t, routes !! n = Some t → matchLLMResponse r response routes = (t, true)) ∧
  (∀ t, routes !! n = None →
        firstInOrder folds (rangeEqualFold r routes) t →
        matchLLMResponse r response routes = (t, true)) ∧
  (∀ t, routes !! n = None →
        (∀ key, key ∈ dom routes → folds key = false) →
        firstInOrder contained (rangeContains r routes) t →
        matchLLMResponse r response routes = (t, true)) ∧
  (routes !! n = None →
   (∀ key, key ∈ dom routes → folds key = false) →
   (∀ key, key ∈ dom routes → contained key = false) →
   matchLLMResponse r response routes = ("", false)) ∧
  (∀ state config lc client prompt,
     let c := resolveMode config in
     Mode c = ModeLLM → validateConfig (Some c) = None →
     LLMConfig_ c = Some lc → Routes lc = routes →
     llmClient r = Some client →
     renderPrompt r state (PromptTemplate lc) = Ok prompt →
     callLLM client prompt = Return (Ok response) →
     Route r state (Some config)
     = Returned (Ok (match matchLLMResponse r response routes with
                     | (target, true) =>
                         {| TargetNode := target;
                            Reasoning := "llm classified as: " ++ response;
                            Mode_ := "llm"; PathTaken := "slow" |}
                     | (_, false) =>
                         {| TargetNode := Fallback c;
                            Reasoning := "llm response '" ++ response
                                         ++ "' did not match any route";
                            Mode_ := "llm"; PathTaken := "fallback" |}
                     end))) ∧
  (∀ r', stringsLib r' = stringsLib r →
         validRange (rangeEqualFold r') → validRange (rangeContains r') →
         (is_Some (routes !! n) ∨
          atMostOneKey folds routes ∧ atMostOneKey contained routes) →
         matchLLMResponse r' response routes = matchLLMResponse r response routes).
Proof.
  intros Hv1 Hv2 n folds contained.
  assert (Hnofold : (∀ key, key ∈ dom routes → folds key = false) →
            rangeReturn folds (rangeEqualFold r routes) = None).
  { intros Hno. apply rangeReturn_None. intros key target Hin.
    apply Hno, elem_of_dom. exists target.
    by apply (validRange_lookup (rangeEqualFold r)). }
  assert (Hnocont : (∀ key, key ∈ dom routes → contained key = false) →
            rangeReturn contained (rangeContains r routes) = None).
  { intros Hno. apply rangeReturn_None. intros key target Hin.
    apply Hno, elem_of_dom. exists target.
    by apply (validRange_lookup (rangeContains r)). }
  split_and!.
  - intros t Ht. unfold matchLLMResponse. fold (normalize r response). fold n.
    by rewrite Ht.
  - intros t Hnone Hfirst. unfold matchLLMResponse.
    fold (normalize r response). fold n. rewrite Hnone.
    fold folds. by rewrite (rangeReturn_first _ _ _ Hfirst).
  - intros t Hnone Hno Hfirst. unfold matchLLMResponse.
    fold (normalize r response). fold n. rewrite Hnone.
    fold folds. rewrite (Hnofold Hno).
    fold contained. by rewrite (rangeReturn_first _ _ _ Hfirst).
  - intros Hnone Hno1 Hno2. unfold matchLLMResponse.
    fold (normalize r response). fold n. rewrite Hnone.
    fold folds. rewrite (Hnofold Hno1).
    fold contained. by rewrite (Hnocont Hno2).
  - intros state config lc client prompt c Hm Hvalid Hlc Hroutes Hclient Hrender Hcall.
    rewrite (Route_llm _ _ _ Hm). fold c.
    unfold routeLLM. rewrite Hvalid, Hclient, Hlc. simpl default.
    rewrite Hrender, Hcall, Hroutes.
    by destruct (matchLLMResponse r response routes) as [target []].
  - intros r' Hlib Hv1' Hv2' Hunique.
    unfold matchLLMResponse. rewrite Hlib.
    fold (normalize r response). fold n. fold folds. fold contained.
    destruct Hunique as [[t Ht] | [Hone1 Hone2]]; [by rewrite Ht|].
    rewrite (rangeReturn_order_independent folds (rangeEqualFold r')
               (rangeEqualFold r) routes Hv1' Hv1 Hone1).
    rewrite (rangeReturn_order_independent contained (rangeContains r')
               (rangeContains r) routes Hv2' Hv2 Hone2).
    done.
Qed.

Lemma llm_response_matching_witness :
  matchLLMResponse (exampleRouter None) "  Technical" {[ "technical" := "T" ]}
  = ("T", true).
Proof.
  refine (proj1 (llm_response_matching (exampleRouter None) "  Technical"
                   {[ "technical" := "T" ]} _ _) "T" _).
  - intros routes. reflexivity.
  - intros routes. reflexivity.
  - reflexivity.
Defined.

(** ** The decisions [Route] returns *)

(** A returned decision comes from a validated config and is either the
    fallback or a matched route of the llm settings in use. *)
Lemma Route_decision_inv r state config d :
  let c := resolveMode config in
  Route r state (Some config) = Returned (Ok d) →
  validateConfig (Some c) = None ∧ Mode_ d = Mode c ∧
  ((PathTaken d = "fallback" ∧ TargetNode d = Fallback c) ∨
   (PathTaken d = "slow" ∧
    ∃ lc response,
      (Mode c = ModeLLM ∧ LLMConfig_ c = Some lc ∨
       Mode c = ModeHybrid ∧ LLMFallback c = Some lc) ∧
      matchLLMResponse r response (Routes lc) = (TargetNode d, true))).
Proof.
  intros c HRoute.
  destruct (mode_cases (Mode c)) as
    [[_ Hm] | [(_ & _ & Hm) | [(_ & _ & _ & Hm) | (H1 & H2 & H3)]]].
  - rewrite (Route_deterministic _ _ _ Hm) in HRoute. fold c in HRoute.
    unfold routeDeterministic in HRoute.
    destruct (validateConfig _); [done|].
    destruct (prepareStateForCEL state) as [celState|]; [|done].
    destruct (ruleLoop _ _ _ _ _) as [[res|]|] eqn:Hloop; [| |done].
    + by destruct (ruleLoop_never_matches _ _ _ _ _ _ Hloop).
    + injection HRoute as <-. rewrite Hm. simpl. split_and!; auto.
  - rewrite (Route_llm _ _ _ Hm) in HRoute. fold c in HRoute.
    unfold routeLLM in HRoute.
    destruct (validateConfig (Some c)) eqn:Hvalid; [done|].
    destruct (proj1 (validateConfig_accepts c) Hvalid) as (_ & _ & Hllm & _).
    destruct (Hllm Hm) as (lc & Hlc & _). rewrite Hlc in HRoute.
    simpl default in HRoute.
    destruct (llmClient r); [|done].
    destruct (renderPrompt _ _ _); [|done].
    destruct (callLLM _ _) as [[response|e]|]; [| |done].
    + destruct (matchLLMResponse _ _ _) as [target []] eqn:Hmatch;
        injection HRoute as <-; rewrite Hm; simpl; split_and!; auto.
      right. split; [done|]. exists lc, response. auto.
    + injection HRoute as <-. rewrite Hm. simpl. split_and!; auto.
  - rewrite (Route_hybrid _ _ _ Hm) in HRoute. fold c in HRoute.
    unfold routeHybrid in HRoute.
    destruct (validateConfig (Some c)) eqn:Hvalid; [done|].
    destruct (proj1 (validateConfig_accepts c) Hvalid) as (_ & _ & _ & Hhyb).
    destruct (Hhyb Hm) as (_ & lc & Hlc & _). rewrite Hlc in HRoute.
    simpl default in HRoute.
    destruct (prepareStateForCEL state) as [celState|]; [|done].
    destruct (ruleLoop _ _ _ _ _) as [[res|]|] eqn:Hloop; [| |done].
    { by destruct (ruleLoop_never_matches _ _ _ _ _ _ Hloop). }
    destruct (llmClient r).
    2:{ injection HRoute as <-. rewrite Hm. simpl. split_and!; auto. }
    destruct (renderPrompt _ _ _).
    2:{ injection HRoute as <-. rewrite Hm. simpl. split_and!; auto. }
    destruct (callLLM _ _) as [[response|e]|]; [| |done].
    + destruct (matchLLMResponse _ _ _) as [target []] eqn:Hmatch;
        injection HRoute as <-; rewrite Hm; simpl; split_and!; auto.
      right. split; [done|]. exists lc, response. auto.
    + injection HRoute as <-. rewrite Hm. simpl. split_and!; auto.
  - unfold Route in HRoute. fold c in HRoute. by rewrite H1, H2, H3 in HRoute.
Qed.

(** ** Non-empty targets *)

(** A routes map with an empty target passes validation and the empty
    target is returned on the slow path. *)
Lemma empty_route_target_returned :
  let routes : gmap string string := {[ "a" := "" ]} in
  let r := exampleRouter (Some (λ _, CompletionResponse "a")) in
  validateConfig (Some (llmConfig "p" routes "f")) = None ∧
  Route r emptyState (Some (llmConfig "p" routes "f"))
  = Returned (Ok {| TargetNode := ""; Reasoning := "llm classified as: a";
                    Mode_ := "llm"; PathTaken := "slow" |}).
Proof. vm_compute. done. Qed.

(** [C2] For any config and state: a decision returned on the fallback path
    has a non-empty [target_node], the validated fallback; a decision
    returned on the slow path has a non-empty [target_node] when the routes
    maps of the config name no empty target; and in llm mode a config that
    passes validation gets a decision whenever a client is configured, the
    prompt renders and the model call returns.  (Fast-path decisions, and
    whether deterministic and hybrid mode return at all, are not covered.) *)
Theorem decision_target_non_empty r state config :
  let c := resolveMode config in
  (∀ d, Route r state (Some config) = Returned (Ok d) →
        PathTaken d = "fallback" → TargetNode d ≠ "") ∧
  (∀ d, Route r state (Some config) = Returned (Ok d) →
        PathTaken d = "slow" →
        validRange (rangeEqualFold r) → validRange (rangeContains r) →
        routeTargetsNonEmpty c →
        TargetNode d ≠ "") ∧
  (∀ lc client prompt res,
     Mode c = ModeLLM → validateConfig (Some c) = None →
     LLMConfig_ c = Some lc → llmClient r = Some client →
     renderPrompt r state (PromptTemplate lc) = Ok prompt →
     callLLM client prompt = Return res →
     ∃ d, Route r state (Some config) = Returned (Ok d)).
Proof.
  intros c. split_and!.
  - intros d HRoute Hpath.
    destruct (Route_decision_inv _ _ _ _ HRoute) as (Hvalid & _ & Hcases).
    fold c in Hvalid, Hcases.
    destruct Hcases as [[_ ->] | [Hslow _]]; [|congruence].
    by apply validateConfig_accepts in Hvalid as [Hf _].
  - intros d HRoute Hpath Hv1 Hv2 Hroutes.
    destruct (Route_decision_inv _ _ _ _ HRoute) as (_ & _ & Hcases).
    fold c in Hcases.
    destruct Hcases as [[Hfb _] | (_ & lc & response & Hlc & Hmatch)];
      [congruence|].
    destruct (matchLLMResponse_in_routes _ _ _ _ Hv1 Hv2 Hmatch) as (key & Hk).
    eapply (Hroutes lc key); [|done].
    destruct Hlc as [[_ ?] | [_ ?]]; auto.
  - intros lc client prompt res Hm Hvalid Hlc Hclient Hrender Hcall.
    rewrite (Route_llm _ _ _ Hm). fold c.
    unfold routeLLM. rewrite Hvalid, Hclient, Hlc. simpl default.
    rewrite Hrender, Hcall.
    destruct res as [response|e]; [|by eauto].
    destruct (matchLLMResponse _ _ _) as [target []]; eauto.
Qed.

(** An llm run on which all three parts speak. *)
Example decision_target_non_empty_example :
  Route (exampleRouter (Some (λ _, CompletionResponse "a"))) emptyState
        (Some (llmConfig "p" {[ "a" := "X" ]} "f"))
  = Returned (Ok {| TargetNode := "X"; Reasoning := "llm classified as: a";
                    Mode_ := "llm"; PathTaken := "slow" |}).
Proof. vm_compute. done. Qed.

(** ** Failures of the language-model path *)

(** [C7] Model-failure containment.  For a config that passes validation in
    llm mode: when the client is configured, the prompt renders and the
    client's completion call returns an error [cause], the engine returns
    (as a value, not as an error) the fallback decision: target the config's
    fallback, [path_taken = fallback], [mode = llm], and a reasoning that
    begins with "llm call failed:" and ends with the cause. *)
Theorem llm_failure_contained r state config lc client prompt cause :
  let c := resolveMode config in
  Mode c = ModeLLM → validateConfig (Some c) = None →
  LLMConfig_ c = Some lc →
  llmClient r = Some client →
  renderPrompt r state (PromptTemplate lc) = Ok prompt →
  client {| req_Model := "claude-sonnet-4-20250514";
            req_Messages := [("user", prompt)];
            req_MaxTokens := 1024 |} = CompletionErr cause →
  ∃ d, Route r state (Some config) = Returned (Ok d) ∧
       TargetNode d = Fallback config ∧ PathTaken d = "fallback" ∧
       Mode_ d = "llm" ∧
       String.prefix "llm call failed:" (Reasoning d) = true ∧
       Reasoning d = "llm call failed: llm completion failed: " ++ cause.
Proof.
  intros c Hm Hvalid Hlc Hclient Hrender Hcall.
  rewrite (Route_llm _ _ _ Hm). fold c.
  unfold routeLLM. rewrite Hvalid, Hclient, Hlc. simpl default.
  rewrite Hrender. unfold callLLM. rewrite Hcall.
  eexists. split; [reflexivity|]. simpl.
  repeat split. apply resolveMode_Fallback.
Qed.

Lemma llm_failure_contained_witness :
  ∃ d, Route (exampleRouter (Some (λ _, CompletionErr "timeout"))) emptyState
         (Some (llmConfig "p" {[ "a" := "X" ]} "f"))
       = Returned (Ok d) ∧
       TargetNode d = "f" ∧ PathTaken d = "fallback" ∧ Mode_ d = "llm" ∧
       String.prefix "llm call failed:" (Reasoning d) = true ∧
       Reasoning d = "llm call failed: llm completion failed: timeout".
Proof.
  apply (llm_failure_contained
           (exampleRouter (Some (λ _, CompletionErr "timeout"))) emptyState
           (llmConfig "p" {[ "a" := "X" ]} "f")
           {| PromptTemplate := "p"; Routes := {[ "a" := "X" ]} |}
           (λ _, CompletionErr "timeout") "p" "timeout");
    reflexivity.
Defined.

(** Phase 2 of [routeHybrid] is reached exactly when every fast rule failed
    to evaluate. *)
Lemma routeHybrid_phase2 r state c celState :
  validateConfig (Some c) = None →
  prepareStateForCEL state = Return celState →
  (∀ rule, rule ∈ FastRules c → ruleFails r celState rule) →
  routeHybrid r state c
  = match llmClient r with
    | None =>
        Returned (Ok {| TargetNode := Fallback c;
                        Reasoning := "fast rules did not match and llm client not configured";
                        Mode_ := ModeHybrid; PathTaken := "fallback" |})
    | Some client =>
        let lc := default nilLLMConfig (LLMFallback c) in
        match renderPrompt r state (PromptTemplate lc) with
        | Err err =>
            Returned (Ok {| TargetNode := Fallback c;
                            Reasoning := "failed to render prompt: " ++ err;
                            Mode_ := ModeHybrid; PathTaken := "fallback" |})
        | Ok prompt =>
            match callLLM client prompt with
            | Panics => Panicked
            | Return (Err err) =>
                Returned (Ok {| TargetNode := Fallback c;
                                Reasoning := "llm call failed: " ++ err;
                                Mode_ := ModeHybrid; PathTaken := "fallback" |})
            | Return (Ok response) =>
                match matchLLMResponse r response (Routes lc) with
                | (_, false) =>
                    Returned (Ok {| TargetNode := Fallback c;
                                    Reasoning := "llm response '" ++ response
                                                 ++ "' did not match any route";
                                    Mode_ := ModeHybrid; PathTaken := "fallback" |})
                | (target, true) =>
                    Returned (Ok {| TargetNode := target;
                                    Reasoning := "llm classified as: " ++ response
                                                 ++ " (after fast rules failed)";
                                    Mode_ := ModeHybrid; PathTaken := "slow" |})
                end
            end
        end
    end.
Proof.
  intros Hvalid Hprep Hall. unfold routeHybrid.
  rewrite Hvalid, Hprep. by rewrite ruleLoop_all_fail.
Qed.

(** A fast rule whose condition evaluates, to whatever value, ends a hybrid
    call in a panic when it is reached. *)
Lemma routeHybrid_panics r state c celState n rule :
  validateConfig (Some c) = None →
  prepareStateForCEL state = Return celState →
  FastRules c !! n = Some rule →
  celEvaluate r (Condition rule) celState = Panics →
  (∀ j rj, (j < n)%nat → FastRules c !! j = Some rj → ruleFails r celState rj) →
  routeHybrid r state c = Panicked.
Proof.
  intros Hvalid Hprep Hn Hp Hbefore. unfold routeHybrid.
  rewrite Hvalid, Hprep. by erewrite ruleLoop_panics.
Qed.

(** [C8] A prompt template that fails to render, with a client configured.
    (1) In llm mode the engine returns an error and no decision.  (2) In
    hybrid mode, when every fast rule failed to evaluate, it returns the
    fallback decision with [path_taken = fallback] and a reasoning naming
    the render error.  (3) In hybrid mode, when the first fast rule that
    does not fail is one whose value is converted with a panic, the engine
    panics and returns nothing, where the specification has the fallback
    decision.
    (4) On the example library the fast rule "false" evaluates to [false],
    so it does not match, and [Route] panics; with a fast rule that does not
    compile the same config gets the fallback decision. *)
Theorem render_failure_asymmetry :
  (∀ r state client config lc err,
     let c := resolveMode config in
     llmClient r = Some client →
     Mode c = ModeLLM → validateConfig (Some c) = None →
     LLMConfig_ c = Some lc →
     renderPrompt r state (PromptTemplate lc) = Err err →
     Route r state (Some config)
     = Returned (Err ("failed to render prompt: " ++ err))) ∧
  (∀ r state client config lc err celState,
     let c := resolveMode config in
     llmClient r = Some client →
     Mode c = ModeHybrid → validateConfig (Some c) = None →
     LLMFallback c = Some lc →
     prepareStateForCEL state = Return celState →
     (∀ rule, rule ∈ FastRules c → ruleFails r celState rule) →
     renderPrompt r state (PromptTemplate lc) = Err err →
     Route r state (Some config)
     = Returned (Ok {| TargetNode := Fallback c;
                       Reasoning := "failed to render prompt: " ++ err;
                       Mode_ := "hybrid"; PathTaken := "fallback" |})) ∧
  (∀ r state config celState n rule,
     let c := resolveMode config in
     Mode c = ModeHybrid → validateConfig (Some c) = None →
     prepareStateForCEL state = Return celState →
     FastRules c !! n = Some rule →
     celEvaluate r (Condition rule) celState = Panics →
     (∀ j rj, (j < n)%nat → FastRules c !! j = Some rj →
              ruleFails r celState rj) →
     Route r state (Some config) = Panicked) ∧
  (let r := exampleRouter (Some (λ _, CompletionResponse "a")) in
   (∀ vars, cel.Eval exampleCel "false" vars = Ok (VBool false)) ∧
   renderPrompt r emptyState "{{#if}}" = Err "parse error" ∧
   Route r emptyState
     (Some (hybridConfig [mkRule "false" "A"] "{{#if}}" {[ "a" := "X" ]} "f"))
   = Panicked ∧
   Route r emptyState
     (Some (hybridConfig [mkRule "nosuch.x > 1" "A"] "{{#if}}" {[ "a" := "X" ]} "f"))
   = Returned (Ok {| TargetNode := "f";
                     Reasoning := "failed to render prompt: parse error";
                     Mode_ := "hybrid"; PathTaken := "fallback" |}) ∧
   Route r emptyState (Some (llmConfig "{{#if}}" {[ "a" := "X" ]} "f"))
   = Returned (Err "failed to render prompt: parse error")).
Proof.
  split_and!.
  - intros r state client config lc err c Hclient Hm Hvalid Hlc Hrender.
    rewrite (Route_llm _ _ _ Hm). fold c.
    unfold routeLLM. rewrite Hvalid, Hclient, Hlc. simpl default.
    by rewrite Hrender.
  - intros r state client config lc err celState c Hclient Hm Hvalid Hlc
      Hprep Hall Hrender.
    rewrite (Route_hybrid _ _ _ Hm). fold c.
    rewrite (routeHybrid_phase2 _ _ _ _ Hvalid Hprep Hall).
    rewrite Hclient. cbv zeta. rewrite Hlc. simpl default. by rewrite Hrender.
  - intros r state config celState n rule c Hm Hvalid Hprep Hn Hp Hbefore.
    rewrite (Route_hybrid _ _ _ Hm). fold c.
    by eapply routeHybrid_panics.
  - intros r. split_and!; [done | done | vm_compute; reflexivity ..].
Qed.

(** [C10] A router built without a client.  (1) A config that passes
    validation in llm mode gets the error "llm client not configured" and no
    decision.  (2) A config that passes validation in hybrid mode and all
    of whose fast rules failed to evaluate gets the fallback decision with
    [path_taken = fallback].  (3) In hybrid mode, when the first fast rule
    that does not fail is one whose value is converted with a panic, the
    engine panics and returns nothing, where the specification has the fallback
    decision.  (4) On the example library the fast rule "false" evaluates to
    [false], so it does not match, and [Route] panics; with a fast rule that
    does not compile the same config gets the fallback decision. *)
Theorem nil_client_asymmetry :
  (∀ r state config,
     let c := resolveMode config in
     llmClient r = None →
     Mode c = ModeLLM → validateConfig (Some c) = None →
     Route r state (Some config) = Returned (Err "llm client not configured")) ∧
  (∀ r state config celState,
     let c := resolveMode config in
     llmClient r = None →
     Mode c = ModeHybrid → validateConfig (Some c) = None →
     prepareStateForCEL state = Return celState →
     (∀ rule, rule ∈ FastRules c → ruleFails r celState rule) →
     Route r state (Some config)
     = Returned (Ok {| TargetNode := Fallback c;
                       Reasoning := "fast rules did not match and llm client not configured";
                       Mode_ := "hybrid"; PathTaken := "fallback" |})) ∧
  (∀ r state config celState n rule,
     let c := resolveMode config in
     llmClient r = None →
     Mode c = ModeHybrid → validateConfig (Some c) = None →
     prepareStateForCEL state = Return celState →
     FastRules c !! n = Some rule →
     celEvaluate r (Condition rule) celState = Panics →
     (∀ j rj, (j < n)%nat → FastRules c !! j = Some rj →
              ruleFails r celState rj) →
     Route r state (Some config) = Panicked) ∧
  ((∀ vars, cel.Eval exampleCel "false" vars = Ok (VBool false)) ∧
   Route (exampleRouter None) emptyState
     (Some (hybridConfig [mkRule "false" "A"] "p" {[ "a" := "X" ]} "f"))
   = Panicked ∧
   Route (exampleRouter None) emptyState
     (Some (hybridConfig [mkRule "nosuch.x > 1" "A"] "p" {[ "a" := "X" ]} "f"))
   = Returned (Ok {| TargetNode := "f";
                     Reasoning := "fast rules did not match and llm client not configured";
                     Mode_ := "hybrid"; PathTaken := "fallback" |}) ∧
   Route (exampleRouter None) emptyState
     (Some (llmConfig "p" {[ "a" := "X" ]} "f"))
   = Returned (Err "llm client not configured")).
Proof.
  split_and!.
  - intros r state config c Hclient Hm Hvalid.
    rewrite (Route_llm _ _ _ Hm). fold c.
    unfold routeLLM. by rewrite Hvalid, Hclient.
  - intros r state config celState c Hclient Hm Hvalid Hprep Hall.
    rewrite (Route_hybrid _ _ _ Hm). fold c.
    rewrite (routeHybrid_phase2 _ _ _ _ Hvalid Hprep Hall).
    by rewrite Hclient.
  - intros r state config celState n rule c _ Hm Hvalid Hprep Hn Hp Hbefore.
    rewrite (Route_hybrid _ _ _ Hm). fold c.
    by eapply routeHybrid_panics.
  - done.
  - vm_compute. reflexivity.
  - vm_compute. reflexivity.
  - vm_compute. reflexivity.
Qed.

(** ** The data given to the evaluators *)

(** [for key, value := range state.Inputs { data[key] = value }] leaves
    [data] overlaid with the inputs, whatever the order of the visit. *)
Lemma flatten_inputs (inputs data : gmap string Value) :
  map_fold (λ key value (d : gmap string Value), <[key := value]> d) data inputs
  = inputs ∪ data.
Proof.
  apply (map_fold_weak_ind (λ res m, res = m ∪ data)).
  - by rewrite (left_id_L ∅ (∪)).
  - intros key value m res _ ->. by rewrite insert_union_l.
Qed.

Lemma convertNodeStates_lookup nodeStates converted nodeID :
  convertNodeStates nodeStates = Return converted →
  converted !! nodeID
  = nodeStates !! nodeID ≫= λ nodeState, nodeStateView <$> nodeState.
Proof.
  unfold convertNodeStates. case_bool_decide; [|done].
  intros [= <-]. apply lookup_omap.
Qed.

(** The projections over a state with one finished node. *)
Example projections_one_node :
  let ns := {| ns_Status := "completed"; ns_Output := VStr "out";
               ns_Error := VNull; ns_StartedAt := VNum 1;
               ns_CompletedAt := VNum 2 |} in
  let state := {| GraphID := "g"; Status := "running";
                  Inputs := {[ "x" := VNum 7 ]};
                  NodeStates := {[ "n1" := Some ns ]} |} in
  let tstate : gmap string Value :=
    <["graph_id" := VStr "g"]>
      (<["status" := VStr "running"]>
         (<["inputs" := VMap {[ "x" := VNum 7 ]}]> ∅)) in
  prepareStateForCEL state
  = Return {[ "state" := VMap (<["node_states" :=
                                  VMap {[ "n1" := nodeStateView ns ]}]> tstate) ]} ∧
  promptData state = <["x" := VNum 7]> {[ "state" := VMap tstate ]}.
Proof. vm_compute. done. Qed.

(** A stored node state that is null: the projection for the expression
    evaluator panics. *)
Example projection_nil_node_state :
  prepareStateForCEL {| GraphID := "g"; Status := "running"; Inputs := ∅;
                        NodeStates := {[ "n1" := None ]} |} = Panics.
Proof. vm_compute. done. Qed.

(** [C9] For every graph state whose projection for the expression
    evaluator is built ([celState]): the expression evaluator receives the
    single binding [state] with [graph_id], [status], [inputs] and
    [node_states], the latter projecting each node state to [status],
    [output], [error], [started_at] and [completed_at]; the template engine
    receives every inputs entry as a top-level field; but the [state]
    binding the template engine receives holds [graph_id], [status] and
    [inputs] only: it has no [node_states] and, for a state with no input
    named [state], it is not the binding given to the expression
    evaluator. *)
Theorem template_state_omits_node_states (state : GraphState)
    (celState : gmap string Value) :
  prepareStateForCEL state = Return celState →
  let tstate : gmap string Value :=
    <["graph_id" := VStr (GraphID state)]>
      (<["status" := VStr (Status state)]>
         (<["inputs" := VMap (Inputs state)]> ∅)) in
  (∃ nodeStates,
     convertNodeStates (NodeStates state) = Return nodeStates ∧
     celState = {[ "state" := VMap (<["node_states" := VMap nodeStates]> tstate) ]} ∧
     ∀ nodeID, nodeStates !! nodeID
               = NodeStates state !! nodeID ≫= λ nodeState,
                   nodeStateView <$> nodeState) ∧
  (∀ key value, Inputs state !! key = Some value →
                promptData state !! key = Some value) ∧
  promptData state = Inputs state ∪ {[ "state" := VMap tstate ]} ∧
  tstate !! "inputs" = Some (VMap (Inputs state)) ∧
  tstate !! "node_states" = None ∧
  (Inputs state !! "state" = None →
   promptData state !! "state" = Some (VMap tstate) ∧
   promptData state !! "state" ≠ celState !! "state").
Proof.
  intros Hprep tstate.
  assert (Hdata : promptData state = Inputs state ∪ {[ "state" := VMap tstate ]}).
  { unfold promptData. by rewrite flatten_inputs. }
  assert (Hnone : tstate !! "node_states" = None).
  { unfold tstate. by rewrite !lookup_insert_ne, lookup_empty by discriminate. }
  unfold prepareStateForCEL in Hprep.
  destruct (convertNodeStates (NodeStates state)) as [nodeStates|] eqn:Hconv;
    [|done].
  injection Hprep as <-. fold tstate.
  split_and!.
  - exists nodeStates. split_and!; [done | done |].
    intros nodeID. by apply convertNodeStates_lookup.
  - intros key value Hk. rewrite Hdata. by apply lookup_union_Some_l.
  - exact Hdata.
  - unfold tstate. by rewrite !lookup_insert_ne, lookup_insert_eq by discriminate.
  - exact Hnone.
  - intros Hin.
    assert (Ht : promptData state !! "state" = Some (VMap tstate)).
    { rewrite Hdata, lookup_union_r by done. apply lookup_singleton_eq. }
    split; [exact Ht|].
    rewrite Ht, lookup_insert_eq. intros H.
    assert (Hinj : ∀ a b : gmap string Value, Some (VMap a) = Some (VMap b) → a = b)
      by (by intros a b [= ->]).
    apply Hinj in H.
    apply (f_equal (λ m : gmap string Value, m !! "node_states")) in H.
    cbv beta in H. rewrite Hnone in H.
    rewrite lookup_insert_ne, lookup_insert_ne, lookup_insert_ne,
      lookup_insert_eq in H by discriminate.
    discriminate.
Qed.

Lemma template_state_omits_node_states_witness :
  promptData emptyState !! "state"
  ≠ ({[ "state" := VMap (<["node_states" := VMap ∅]>
                         (<["graph_id" := VStr "g"]>
                         (<["status" := VStr "running"]>
                         (<["inputs" := VMap ∅]> ∅)))) ]}
      : gmap string Value) !! "state".
Proof.
  refine (proj2 (proj2 (proj2 (proj2 (proj2 (proj2
    (template_state_omits_node_states emptyState _ _))))) _)).
  - reflexivity.
  - reflexivity.
Defined.

(** An input named [state] takes the place of the [state] binding. *)
Example template_state_shadowed :
  promptData {| GraphID := "g"; Status := "running";
                Inputs := {[ "state" := VStr "x" ]}; NodeStates := ∅ |} !! "state"
  = Some (VStr "x").
Proof.
  unfold promptData. rewrite flatten_inputs. simpl Inputs.
  apply lookup_union_Some_l, lookup_singleton_eq.
Qed.

(** ** The worker: appends and acknowledgements per delivered entry *)

Lemma length_append (s t : string) :
  String.length (s ++ t) = (String.length s + String.length t)%nat.
Proof. induction s as [|c s IH]; simpl; [done | by rewrite IH]. Qed.

Lemma errors_stream_distinct (s : string) : s ≠ s ++ ".errors".
Proof.
  intros H. apply (f_equal String.length) in H.
  rewrite length_append in H. simpl in H. lia.
Qed.

(** [processRoutingRequest] panics, before any call to the broker, when
    [Route] does; otherwise it either fails before any append is tried, or
    tries exactly one append, to the result stream, and reports whether the
    broker took it. *)
Lemma processRoutingRequest_calls w message request tr :
  parseWorkRequest w (Values message) = Ok request →
  if routingPanics w message
  then processRoutingRequest w request tr = (None, tr)
  else
    ∃ perr added,
      processRoutingRequest w request tr = (Some perr, (tr ++ added)%list) ∧
      ((added = [] ∧ is_Some perr) ∨
       (∃ data, added = [XAdd (resultStream w) data (redisXAdd w (resultStream w) data)] ∧
                (perr = None ↔ redisXAdd w (resultStream w) data = None))).
Proof.
  intros Hparse. unfold routingPanics, processRoutingRequest. rewrite Hparse.
  destruct (stateStoreLoad w _) as [stateData|e].
  2:{ eexists _, []. rewrite app_nil_r. split; [reflexivity|]. left. eauto. }
  destruct (convertToGraphState w _ _) as [graphState|e].
  2:{ eexists _, []. rewrite app_nil_r. split; [reflexivity|]. left. eauto. }
  destruct (parseNodeConfig w _) as [nodeConfig|e].
  2:{ eexists _, []. rewrite app_nil_r. split; [reflexivity|]. left. eauto. }
  destruct (Route (router_ w) graphState (Some nodeConfig)) as [[res|e]|];
    [| |done].
  2:{ eexists _, []. rewrite app_nil_r. split; [reflexivity|]. left. eauto. }
  unfold publishDecision, mbind, M_bind, call, mret, M_ret.
  set (data := DecisionRecord _ _ _ _ _ _ _).
  destruct (redisXAdd w (resultStream w) data) as [e|] eqn:Hadd.
  - eexists _, [_]. split; [reflexivity|]. right. exists data. rewrite Hadd.
    split; [reflexivity|]. split; discriminate.
  - eexists _, [_]. split; [reflexivity|]. right. exists data. by rewrite Hadd.
Qed.

Lemma routingPanics_parsed w message :
  routingPanics w message = true →
  ∃ request, parseWorkRequest w (Values message) = Ok request.
Proof.
  unfold routingPanics. destruct (parseWorkRequest _ _); [eauto | done].
Qed.

(** A panic in [Route] ends the handling of the entry before any call to
    the broker. *)
Lemma handleMessage_panics w message tr :
  routingPanics w message = true → handleMessage w message tr = (None, tr).
Proof.
  intros Hp. destruct (routingPanics_parsed _ _ Hp) as [request Hparse].
  pose proof (processRoutingRequest_calls w message request tr Hparse) as H.
  rewrite Hp in H. unfold handleMessage. rewrite Hparse.
  unfold mbind, M_bind. by rewrite H.
Qed.

(** Otherwise the handling runs to its end: the appends it made, then one
    acknowledgement. *)
Lemma handleMessage_calls w message tr :
  routingPanics w message = false →
  ∃ added, handleMessage w message tr = (Some tt, (tr ++ added)%list) ∧
           acks added = [(streamKey w, consumerGroup w, ID message)] ∧
           match parseWorkRequest w (Values message) with
           | Err _ => appendCalls added = []
           | Ok _ =>
               brokerUp w →
               ∃ data,
                 appendCalls added = [(resultStream w, data)] ∧
                 appendsTo (resultStream w) added = [data] ∧
                 appendsTo (resultStream w ++ ".errors") added = []
                 ∨
                 appendCalls added = [(resultStream w ++ ".errors", data)] ∧
                 appendsTo (resultStream w) added = [] ∧
                 appendsTo (resultStream w ++ ".errors") added = [data]
           end.
Proof.
  intros Hnp. unfold handleMessage.
  destruct (parseWorkRequest w (Values message)) as [request|e] eqn:Hparse.
  2:{ eexists [_]. split; [reflexivity|]. done. }
  unfold mbind, M_bind.
  pose proof (processRoutingRequest_calls w message request tr Hparse) as H.
  rewrite Hnp in H.
  destruct H as (perr & added & -> & [[-> [e ->]] | (data & -> & Hperr)]).
  - eexists. split.
    { unfold publishError, acknowledgeMessage, call. simpl.
      rewrite <- !app_assoc. simpl. reflexivity. }
    split; [done|].
    intros Hup. eexists. right.
    unfold appendCalls, appendsTo. simpl. rewrite (Hup _ _).
    rewrite decide_False
      by (intros H; symmetry in H; by apply errors_stream_distinct in H).
    rewrite decide_True by done.
    done.
  - destruct perr as [e|].
    + destruct Hperr as [_ Hperr].
      eexists. split.
      { unfold publishError, acknowledgeMessage, call. simpl.
        rewrite <- !app_assoc. simpl. reflexivity. }
      split; [done|].
      intros Hup. by specialize (Hperr (Hup _ _)).
    + eexists. split.
      { unfold acknowledgeMessage, call, mret, M_ret. simpl.
        rewrite <- !app_assoc. simpl. reflexivity. }
      split; [done|].
      intros Hup. exists data. left.
      unfold appendCalls, appendsTo. simpl. rewrite (Hup _ _).
      rewrite decide_True by done.
      rewrite decide_False by apply errors_stream_distinct.
      done.
Qed.

Lemma appendsTo_nil stream tr : appendCalls tr = [] → appendsTo stream tr = [].
Proof.
  induction tr as [|[s d err|s g i err] rest IH]; intros H; [done| |].
  - discriminate.
  - by apply IH.
Qed.

(** An entry whose payload does not parse as a work request is acknowledged
    and nothing is appended, to either stream. *)
Lemma parse_failure_appends_nothing :
  brokerUp exampleWorker ∧
  parseWorkRequest exampleWorker (Values (entry "1-0" "{"))
  = Err "failed to unmarshal work request: invalid character" ∧
  handleMessage exampleWorker (entry "1-0" "{") []
  = (Some tt, [XAck "router.work" "router-workers" "1-0" None]) ∧
  appendsTo "router.decided" (handleMessage exampleWorker (entry "1-0" "{") []).2 = [] ∧
  appendsTo "router.decided.errors"
            (handleMessage exampleWorker (entry "1-0" "{") []).2 = [].
Proof. split; [done|]. vm_compute. done. Qed.

(** A request whose state is missing: one append, to the error stream. *)
Example missing_state_appends_error :
  handleMessage exampleWorker (entry "2-0" "ok2") []
  = (Some tt,
     [XAdd "router.decided.errors"
           (ErrorRecord "exec-2" "n" "failed to load state: not found" 0) None;
      XAck "router.work" "router-workers" "2-0" None]).
Proof. vm_compute. done. Qed.

(** A request whose only rule does not compile: the fallback decision is
    appended to the result stream. *)
Example fallback_decision_appended :
  handleMessage exampleWorker (entry "1-0" "ok") []
  = (Some tt,
     [XAdd "router.decided"
           (DecisionRecord "exec-1" "n" "D" "no rules matched" "deterministic"
                           "fallback" 0) None;
      XAck "router.work" "router-workers" "1-0" None]).
Proof. vm_compute. done. Qed.

(** [C4] Result-stream totality, for entries that parse and whose routing
    does not panic.  With a broker that accepts appends, handling a
    delivered entry for which [Route] does not panic runs to its end; when
    the payload parses as a work request it makes exactly one append, either
    to the result stream or to the error stream (the result stream's name
    followed by ".errors"), never to both and never to neither; when the
    payload does not parse it makes no append at all. *)
Theorem one_append_per_parsed_entry w message tr :
  brokerUp w →
  routingPanics w message = false →
  ∃ added, handleMessage w message tr = (Some tt, (tr ++ added)%list) ∧
    let results := length (appendsTo (resultStream w) added) in
    let errors := length (appendsTo (resultStream w ++ ".errors") added) in
    match parseWorkRequest w (Values message) with
    | Ok _ => length (appendCalls added) = 1%nat ∧
              ((results = 1 ∧ errors = 0) ∨ (results = 0 ∧ errors = 1))%nat
    | Err _ => appendCalls added = [] ∧ results = 0%nat ∧ errors = 0%nat
    end.
Proof.
  intros Hup Hnp.
  destruct (handleMessage_calls w message tr Hnp) as (added & Hrun & _ & Happ).
  exists added. split; [done|].
  destruct (parseWorkRequest w (Values message)) as [request|e].
  - destruct (Happ Hup) as (data & [(-> & -> & ->) | (-> & -> & ->)]); simpl; auto.
  - split; [done|].
    by rewrite !appendsTo_nil.
Qed.

Lemma one_append_per_parsed_entry_witness :
  ∃ added,
    handleMessage exampleWorker (entry "1-0" "ok") [] = (Some tt, added) ∧
    appendCalls added
    = [("router.decided",
        DecisionRecord "exec-1" "n" "D" "no rules matched" "deterministic"
                       "fallback" 0)] ∧
    length (appendsTo "router.decided" added) = 1%nat ∧
    length (appendsTo "router.decided.errors" added) = 0%nat.
Proof.
  destruct (one_append_per_parsed_entry exampleWorker (entry "1-0" "ok") [])
    as (added & Hrun & Hcount).
  - intros stream data. reflexivity.
  - vm_compute. reflexivity.
  - exists added. split; [exact Hrun|].
    vm_compute in Hrun. injection Hrun as <-. vm_compute. done.
Defined.

(** The acknowledgements of one read whose entries are all handled to the
    end. *)
Lemma dispatch_acks w :
  (∀ messages tr,
     Forall (λ message, routingPanics w message = false) messages →
     ∃ added, handleMessages w messages tr = (Some tt, (tr ++ added)%list) ∧
              acks added
              = (λ message, (streamKey w, consumerGroup w, ID message)) <$> messages) ∧
  (∀ streams tr,
     Forall (λ message, routingPanics w message = false)
            (concat (Messages <$> streams)) →
     ∃ added, dispatch w streams tr = (Some tt, (tr ++ added)%list) ∧
              acks added
              = (λ message, (streamKey w, consumerGroup w, ID message))
                <$> concat (Messages <$> streams)).
Proof.
  assert (Hmany : ∀ messages tr,
     Forall (λ message, routingPanics w message = false) messages →
     ∃ added, handleMessages w messages tr = (Some tt, (tr ++ added)%list) ∧
              acks added
              = (λ message, (streamKey w, consumerGroup w, ID message)) <$> messages).
  { induction messages as [|message rest IH]; intros tr Hall.
    - exists []. by rewrite app_nil_r.
    - inversion Hall as [|? ? Hnp Hrest]; subst.
      destruct (handleMessage_calls w message tr Hnp) as (a1 & Hrun1 & Hacks1 & _).
      destruct (IH (tr ++ a1)%list Hrest) as (a2 & Hrun2 & Hacks2).
      exists (a1 ++ a2)%list. split.
      + simpl. unfold mbind, M_bind. rewrite Hrun1, Hrun2. by rewrite app_assoc.
      + unfold acks in *. rewrite omap_app, Hacks1, Hacks2. done. }
  split; [exact Hmany|].
  induction streams as [|stream rest IH]; intros tr Hall.
  - exists []. by rewrite app_nil_r.
  - simpl in Hall. apply Forall_app in Hall as [Hall1 Hall2].
    destruct (Hmany (Messages stream) tr Hall1) as (a1 & Hrun1 & Hacks1).
    destruct (IH (tr ++ a1)%list Hall2) as (a2 & Hrun2 & Hacks2).
    exists (a1 ++ a2)%list. split.
    + simpl. unfold mbind, M_bind. rewrite Hrun1, Hrun2. by rewrite app_assoc.
    + unfold acks in *. rewrite omap_app, Hacks1, Hacks2.
      simpl. by rewrite fmap_app.
Qed.

(** [C5] One acknowledgement per delivered entry holds of the entries whose
    routing does not panic, and of no other.  (1) When [Route] does not
    panic, handling the entry issues exactly one acknowledgement, for that
    entry's id on the input stream and consumer group, whether the payload
    failed to parse, processing failed, or a decision was published, and
    whatever the broker answers; over one read of such entries the
    acknowledgements are those of the entries, one each, in delivery order.
    (2) When [Route] panics, handling the entry ends without any call to the
    broker: nothing is appended and the entry is not acknowledged.  (3) On
    the example library an entry whose single rule is "true" is not
    acknowledged, and the entries delivered after it in the same read are
    not handled. *)
Theorem ack_lost_when_route_panics :
  (∀ w message tr,
     routingPanics w message = false →
     ∃ added, handleMessage w message tr = (Some tt, (tr ++ added)%list) ∧
              acks added = [(streamKey w, consumerGroup w, ID message)]) ∧
  (∀ w streams tr,
     Forall (λ message, routingPanics w message = false)
            (concat (Messages <$> streams)) →
     ∃ added, dispatch w streams tr = (Some tt, (tr ++ added)%list) ∧
              acks added
              = (λ message, (streamKey w, consumerGroup w, ID message))
                <$> concat (Messages <$> streams)) ∧
  (∀ w message tr,
     routingPanics w message = true →
     handleMessage w message tr = (None, tr)) ∧
  routingPanics evaluatingWorker (entry "1-0" "ok") = true ∧
  handleMessage evaluatingWorker (entry "1-0" "ok") [] = (None, []) ∧
  dispatch evaluatingWorker
    [{| Stream := "router.work";
        Messages := [entry "1-0" "ok"; entry "2-0" "ok2"] |}] []
  = (None, []).
Proof.
  split_and!.
  - intros w message tr Hnp.
    destruct (handleMessage_calls w message tr Hnp) as (added & Hrun & Hacks & _).
    eauto.
  - intros w. apply dispatch_acks.
  - intros w message tr. apply handleMessage_panics.
  - vm_compute. reflexivity.
  - vm_compute. reflexivity.
  - vm_compute. reflexivity.
Qed.

(** * Further properties of the routing engine *)

(** [X1] [validateConfig] accepts a non-nil config exactly when the fallback
    is non-empty and, for its mode: deterministic has at least one rule and
    every rule has a non-empty condition and target; llm has an
    [llm_config] with a non-empty template and at least one route; hybrid
    has at least one fast rule and an [llm_fallback] with a non-empty
    template and at least one route.  Any other mode string is accepted as
    soon as the fallback is non-empty. *)
Theorem validation_accepts_exactly (c : NodeConfig) :
  validateConfig (Some c) = None ↔
  Fallback c ≠ "" ∧
  (Mode c = ModeDeterministic →
     Rules c ≠ [] ∧ Forall (λ rule, Condition rule ≠ "" ∧ Target rule ≠ "") (Rules c)) ∧
  (Mode c = ModeLLM → llmSpecOk (LLMConfig_ c)) ∧
  (Mode c = ModeHybrid → FastRules c ≠ [] ∧ llmSpecOk (LLMFallback c)).
Proof. exact (validateConfig_accepts c). Qed.

Lemma validateRules_first_offender (rules : list Rule) : ∀ i n rule,
  rules !! n = Some rule →
  Condition rule = "" ∨ Target rule = "" →
  (∀ j rj, (j < n)%nat → rules !! j = Some rj →
           Condition rj ≠ "" ∧ Target rj ≠ "") →
  validateRules i rules
  = Some ("rule " ++ pretty (i + n)%nat ++
          (if String.eqb (Condition rule) "" then ": condition is required"
           else ": target is required")).
Proof.
  induction rules as [|r0 rest IH]; intros i n rule Hn Hbad Hbefore; [done|].
  destruct n as [|n]; simpl in Hn.
  - injection Hn as ->. simpl. rewrite Nat.add_0_r.
    destruct (String.eqb_spec (Condition rule) ""); [done|].
    destruct Hbad as [?|Ht]; [done|]. by rewrite Ht.
  - destruct (Hbefore 0%nat r0) as [Hc Ht]; [lia | done |].
    simpl. apply String.eqb_neq in Hc, Ht. rewrite Hc, Ht.
    replace (i + S n)%nat with (S i + n)%nat by lia.
    apply IH; [done..|]. intros j rj Hj Hl. apply (Hbefore (S j)); [lia | done].
Qed.

(** [X2] In deterministic mode with a non-empty fallback, validation reports
    the first rule (in declared order) that has an empty condition or an
    empty target, by its zero-based index, and names the condition when both
    are empty. *)
Theorem validation_reports_first_bad_rule (c : NodeConfig) n rule :
  Fallback c ≠ "" → Mode c = ModeDeterministic →
  Rules c !! n = Some rule →
  Condition rule = "" ∨ Target rule = "" →
  (∀ j rj, (j < n)%nat → Rules c !! j = Some rj →
           Condition rj ≠ "" ∧ Target rj ≠ "") →
  validateConfig (Some c)
  = Some ("rule " ++ pretty n ++
          (if String.eqb (Condition rule) "" then ": condition is required"
           else ": target is required")).
Proof.
  intros Hf Hm Hn Hbad Hbefore. unfold validateConfig.
  apply String.eqb_neq in Hf. rewrite Hf, Hm. simpl String.eqb.
  destruct (Rules c) as [|r0 rest] eqn:Hr; [done|]. simpl length. simpl Nat.eqb.
  by apply (validateRules_first_offender (r0 :: rest) 0 n rule).
Qed.

Lemma validation_reports_first_bad_rule_witness :
  validateConfig
    (Some (deterministicConfig
             [mkRule "true" "A"; mkRule "x" ""; mkRule "" ""] "D"))
  = Some "rule 1: target is required".
Proof.
  apply (validation_reports_first_bad_rule
           (deterministicConfig [mkRule "true" "A"; mkRule "x" ""; mkRule "" ""] "D")
           1 (mkRule "x" "")).
  - discriminate.
  - reflexivity.
  - reflexivity.
  - right. reflexivity.
  - intros j rj Hj Hl. destruct j as [|j]; [|lia].
    injection Hl as <-. split; discriminate.
Defined.

(** [X3] A config that fails validation never produces a decision: in each
    of the three modes [Route] returns the validation error prefixed with
    "invalid config: ", whatever the state, the rules' conditions or the
    client. *)
Theorem invalid_config_refused r state config err :
  let c := resolveMode config in
  Mode c = ModeDeterministic ∨ Mode c = ModeLLM ∨ Mode c = ModeHybrid →
  validateConfig (Some c) = Some err →
  Route r state (Some config) = Returned (Err ("invalid config: " ++ err)).
Proof.
  intros c [Hm | [Hm | Hm]] Hinv.
  - rewrite (Route_deterministic _ _ _ Hm). fold c.
    unfold routeDeterministic. by rewrite Hinv.
  - rewrite (Route_llm _ _ _ Hm). fold c. unfold routeLLM. by rewrite Hinv.
  - rewrite (Route_hybrid _ _ _ Hm). fold c. unfold routeHybrid. by rewrite Hinv.
Qed.

Lemma invalid_config_refused_witness :
  Route (exampleRouter None) emptyState
        (Some (deterministicConfig [mkRule "true" "A"] ""))
  = Returned (Err "invalid config: fallback route is required").
Proof.
  apply (invalid_config_refused (exampleRouter None) emptyState
           (deterministicConfig [mkRule "true" "A"] "")
           "fallback route is required").
  - left. reflexivity.
  - reflexivity.
Defined.

(** [X4] A mode string that is neither empty nor one of the three modes is
    refused with "unknown routing mode: <mode>" before any validation: the
    answer is the same whatever else the config holds. *)
Theorem unknown_mode_refused r state config :
  Mode config ≠ "" → Mode config ≠ ModeDeterministic →
  Mode config ≠ ModeLLM → Mode config ≠ ModeHybrid →
  Route r state (Some config)
  = Returned (Err ("unknown routing mode: " ++ Mode config)).
Proof.
  intros H0 H1 H2 H3. unfold Route, resolveMode.
  apply String.eqb_neq in H0, H1, H2, H3. by rewrite H0, H1, H2, H3.
Qed.

Lemma unknown_mode_refused_witness :
  Route (exampleRouter None) emptyState
        (Some (withMode (deterministicConfig [] "") "semantic"))
  = Returned (Err "unknown routing mode: semantic").
Proof.
  apply (unknown_mode_refused (exampleRouter None) emptyState
           (withMode (deterministicConfig [] "") "semantic")); discriminate.
Defined.

(** [X5] With the mode omitted, a config that has no [llm_config], no rules,
    and not both fast rules and an [llm_fallback] is taken as deterministic
    and then refused for its missing rules. *)
Theorem bare_config_defaults_to_deterministic r state config :
  Mode config = "" → Fallback config ≠ "" →
  LLMConfig_ config = None → Rules config = [] →
  FastRules config = [] ∨ LLMFallback config = None →
  Mode (resolveMode config) = ModeDeterministic ∧
  Route r state (Some config)
  = Returned (Err "invalid config: deterministic mode requires rules").
Proof.
  intros Hm Hf Hlc Hr Hhyb.
  assert (Hdet : detectMode config = ModeDeterministic).
  { unfold detectMode. rewrite Hlc, Hr.
    destruct Hhyb as [-> | ->]; simpl; [done|].
    by rewrite andb_false_r. }
  assert (Hres : resolveMode config = withMode config ModeDeterministic).
  { unfold resolveMode. by rewrite Hm, Hdet. }
  split; [by rewrite Hres|].
  rewrite Route_deterministic by (by rewrite Hres).
  rewrite Hres. unfold routeDeterministic, validateConfig. simpl.
  apply String.eqb_neq in Hf. by rewrite Hf, Hr.
Qed.

Lemma bare_config_defaults_to_deterministic_witness :
  Mode (resolveMode (withMode (hybridConfig [] "p" {[ "a" := "b" ]} "f") ""))
  = ModeDeterministic ∧
  Route (exampleRouter None) emptyState
        (Some (withMode (hybridConfig [] "p" {[ "a" := "b" ]} "f") ""))
  = Returned (Err "invalid config: deterministic mode requires rules").
Proof.
  apply (bare_config_defaults_to_deterministic (exampleRouter None) emptyState
           (withMode (hybridConfig [] "p" {[ "a" := "b" ]} "f") ""));
    try reflexivity.
  - discriminate.
  - left. reflexivity.
Defined.

(** [X6] Deterministic fallback: for a config that passes validation and a
    state whose projection is built, the engine returns the fallback
    decision, with reasoning "no rules matched", exactly when every rule
    fails to evaluate; it returns no other decision. *)
Theorem deterministic_falls_back_when_rules_fail r state config celState :
  let c := resolveMode config in
  Mode c = ModeDeterministic → validateConfig (Some c) = None →
  prepareStateForCEL state = Return celState →
  ((∀ rule, rule ∈ Rules c → ruleFails r celState rule) ↔
   Route r state (Some config)
   = Returned (Ok {| TargetNode := Fallback c; Reasoning := "no rules matched";
                     Mode_ := "deterministic"; PathTaken := "fallback" |})) ∧
  (∀ res, Route r state (Some config) = Returned res →
          res = Ok {| TargetNode := Fallback c; Reasoning := "no rules matched";
                      Mode_ := "deterministic"; PathTaken := "fallback" |}).
Proof.
  intros c Hm Hvalid Hprep.
  rewrite (Route_deterministic _ _ _ Hm). fold c.
  unfold routeDeterministic. rewrite Hvalid, Hprep.
  destruct (ruleLoop _ _ _ _ _) as [[res|]|] eqn:Hloop.
  - by destruct (ruleLoop_never_matches _ _ _ _ _ _ Hloop).
  - split; [|by intros res [= <-]].
    split; [done|]. intros _. by eapply ruleLoop_completes.
  - split; [|done]. split; [|done].
    intros Hall. by rewrite ruleLoop_all_fail in Hloop.
Qed.

Lemma deterministic_falls_back_when_rules_fail_witness :
  Route (exampleRouter None) emptyState
        (Some (deterministicConfig [mkRule "nosuch.x > 1" "A"; mkRule "nosuch" "B"] "D"))
  = Returned (Ok {| TargetNode := "D"; Reasoning := "no rules matched";
                    Mode_ := "deterministic"; PathTaken := "fallback" |}).
Proof.
  refine (proj1 (proj1 (deterministic_falls_back_when_rules_fail
                   (exampleRouter None) emptyState
                   (deterministicConfig
                      [mkRule "nosuch.x > 1" "A"; mkRule "nosuch" "B"] "D")
                   _ _ _ _)) _).
  - reflexivity.
  - reflexivity.
  - reflexivity.
  - intros rule Hin.
    inversion Hin as [|? ? ? Hin2]; subst; [eexists; vm_compute; reflexivity|].
    apply list_elem_of_singleton in Hin2 as ->. eexists. vm_compute. reflexivity.
Defined.

(** [X8] Every decision [Route] returns carries the config's mode (given or
    detected) as its [mode], one of the three path labels, and the config's
    fallback as its target whenever the path is [fallback]; deterministic
    mode never takes the slow path and llm mode never takes the fast one. *)
Theorem decision_labels r state config d :
  let c := resolveMode config in
  Route r state (Some config) = Returned (Ok d) →
  Mode_ d = Mode c ∧
  (PathTaken d = "fast" ∨ PathTaken d = "slow" ∨ PathTaken d = "fallback") ∧
  (PathTaken d = "fallback" → TargetNode d = Fallback config) ∧
  (Mode c = ModeDeterministic → PathTaken d ≠ "slow") ∧
  (Mode c = ModeLLM → PathTaken d ≠ "fast").
Proof.
  intros c HRoute.
  destruct (Route_decision_inv _ _ _ _ HRoute) as (_ & Hmode & Hcases).
  fold c in Hmode, Hcases. rewrite <- (resolveMode_Fallback config). fold c.
  destruct Hcases as [[Hp Ht] | (Hp & lc & response & Hlc & _)];
    rewrite Hp; split_and!; auto; try done.
  intros Hm. destruct Hlc as [[Hm' _] | [Hm' _]]; rewrite Hm in Hm'; done.
Qed.

Lemma decision_labels_witness :
  let config := llmConfig "p" {[ "a" := "X" ]} "f" in
  let d := {| TargetNode := "f";
              Reasoning := "llm response 'zzz' did not match any route";
              Mode_ := "llm"; PathTaken := "fallback" |} in
  Mode_ d = Mode (resolveMode config) ∧
  (PathTaken d = "fast" ∨ PathTaken d = "slow" ∨ PathTaken d = "fallback") ∧
  (PathTaken d = "fallback" → TargetNode d = Fallback config) ∧
  (Mode (resolveMode config) = ModeDeterministic → PathTaken d ≠ "slow") ∧
  (Mode (resolveMode config) = ModeLLM → PathTaken d ≠ "fast").
Proof.
  apply (decision_labels (exampleRouter (Some (λ _, CompletionResponse "zzz")))
           emptyState (llmConfig "p" {[ "a" := "X" ]} "f")).
  reflexivity.
Defined.

(** [X9] Deterministic routing looks at nothing but the rules, the fallback
    and the expression evaluator: two routers whose evaluators answer alike,
    and two deterministic configs with the same rules and fallback, give the
    same outcome on every state, whatever their clients, template engines,
    fast rules and llm settings. *)
Theorem deterministic_ignores_llm_settings r r' state config config' :
  (∀ expression vars,
     celEvaluate r expression vars = celEvaluate r' expression vars) →
  Mode (resolveMode config) = ModeDeterministic →
  Mode (resolveMode config') = ModeDeterministic →
  Rules config = Rules config' → Fallback config = Fallback config' →
  Route r state (Some config) = Route r' state (Some config').
Proof.
  intros He Hm Hm' Hr Hf.
  rewrite (Route_deterministic _ _ _ Hm), (Route_deterministic _ _ _ Hm').
  assert (Hloop : ∀ celState mk rules i,
            ruleLoop r celState mk i rules = ruleLoop r' celState mk i rules).
  { intros celState mk rules. induction rules as [|r0 rest IH]; intros i; [done|].
    simpl. rewrite He, !IH. done. }
  unfold routeDeterministic, validateConfig.
  rewrite Hm, Hm', !resolveMode_Rules, !resolveMode_Fallback, Hr, Hf.
  destruct (prepareStateForCEL state); [|done].
  by rewrite Hloop.
Qed.

Lemma deterministic_ignores_llm_settings_witness :
  Route (exampleRouter None) emptyState
        (Some (deterministicConfig [mkRule "nosuch.x > 1" "A"] "D"))
  = Route (reversedRouter (Some (λ _, CompletionErr "down"))) emptyState
          (Some {| Mode := ModeDeterministic; Rules := [mkRule "nosuch.x > 1" "A"];
                   FastRules := [mkRule "false" "Z"]; LLMConfig_ := None;
                   LLMFallback := Some {| PromptTemplate := "p"; Routes := ∅ |};
                   Fallback := "D"; Config := ∅ |}).
Proof.
  apply (deterministic_ignores_llm_settings
           (exampleRouter None) (reversedRouter (Some (λ _, CompletionErr "down")))
           emptyState);
    reflexivity.
Defined.

(** [X10] Phase 2 of hybrid routing agrees with llm routing: for a hybrid
    config all of whose fast rules fail to evaluate and an llm config with
    the same template, routes and fallback, on one router (one client, one
    iteration order of the routes map) whose template renders and whose
    model call returns, the same for both calls, both modes return a
    decision, with the same target and the same path label (slow on a match,
    fallback otherwise). *)
Theorem hybrid_phase2_agrees_with_llm r state
    (configH configL : NodeConfig) (lc : LLMConfig) celState client prompt res :
  let cH := resolveMode configH in
  let cL := resolveMode configL in
  Mode cH = ModeHybrid → validateConfig (Some cH) = None →
  Mode cL = ModeLLM → validateConfig (Some cL) = None →
  LLMFallback cH = Some lc → LLMConfig_ cL = Some lc →
  Fallback cH = Fallback cL →
  prepareStateForCEL state = Return celState →
  (∀ rule, rule ∈ FastRules cH → ruleFails r celState rule) →
  llmClient r = Some client →
  renderPrompt r state (PromptTemplate lc) = Ok prompt →
  callLLM client prompt = Return res →
  ∃ dH dL,
    Route r state (Some configH) = Returned (Ok dH) ∧
    Route r state (Some configL) = Returned (Ok dL) ∧
    TargetNode dH = TargetNode dL ∧ PathTaken dH = PathTaken dL ∧
    PathTaken dH ≠ "fast" ∧ Mode_ dH = "hybrid" ∧ Mode_ dL = "llm".
Proof.
  intros cH cL HmH HvH HmL HvL HlcH HlcL Hfb Hprep Hall Hclient Hrender Hcall.
  rewrite (Route_hybrid _ _ _ HmH), (Route_llm _ _ _ HmL). fold cH cL.
  rewrite (routeHybrid_phase2 _ _ _ _ HvH Hprep Hall).
  unfold routeLLM. rewrite HvL.
  rewrite Hclient. cbv zeta. rewrite HlcH, HlcL. simpl default.
  rewrite Hrender, Hcall, Hfb.
  destruct res as [response|e].
  - destruct (matchLLMResponse r response (Routes lc)) as [target []];
      eexists _, _; split_and!; try reflexivity; done.
  - eexists _, _; split_and!; try reflexivity; done.
Qed.

Lemma hybrid_phase2_agrees_with_llm_witness :
  let r := exampleRouter (Some (λ _, CompletionResponse "A")) in
  ∃ dH dL,
    Route r emptyState
          (Some (hybridConfig [mkRule "nosuch.x > 1" "Z"] "p" {[ "a" := "X" ]} "f"))
    = Returned (Ok dH) ∧
    Route r emptyState (Some (llmConfig "p" {[ "a" := "X" ]} "f"))
    = Returned (Ok dL) ∧
    TargetNode dH = TargetNode dL ∧ PathTaken dH = PathTaken dL ∧
    PathTaken dH ≠ "fast" ∧ Mode_ dH = "hybrid" ∧ Mode_ dL = "llm".
Proof.
  refine (hybrid_phase2_agrees_with_llm
           (exampleRouter (Some (λ _, CompletionResponse "A"))) emptyState
           (hybridConfig [mkRule "nosuch.x > 1" "Z"] "p" {[ "a" := "X" ]} "f")
           (llmConfig "p" {[ "a" := "X" ]} "f")
           {| PromptTemplate := "p"; Routes := {[ "a" := "X" ]} |}
           _ (λ _, CompletionResponse "A") "p" (Ok "A")
           _ _ _ _ _ _ _ _ _ _ _ _).
  - reflexivity.
  - reflexivity.
  - reflexivity.
  - reflexivity.
  - reflexivity.
  - reflexivity.
  - reflexivity.
  - reflexivity.
  - intros rule Hin. apply list_elem_of_singleton in Hin as ->.
    eexists. vm_compute. reflexivity.
  - reflexivity.
  - reflexivity.
  - reflexivity.
Defined.

(** [X11] Model-failure containment in hybrid mode: once every fast rule
    has failed to evaluate, a failing model call (a client error, or a reply
    that is not an LLM response) is not an error of [Route] but the fallback
    decision, with the failure quoted after "llm call failed: ". *)
Theorem hybrid_llm_failure_contained r state config lc client prompt err celState :
  let c := resolveMode config in
  Mode c = ModeHybrid → validateConfig (Some c) = None →
  LLMFallback c = Some lc →
  prepareStateForCEL state = Return celState →
  (∀ rule, rule ∈ FastRules c → ruleFails r celState rule) →
  llmClient r = Some client →
  renderPrompt r state (PromptTemplate lc) = Ok prompt →
  callLLM client prompt = Return (Err err) →
  Route r state (Some config)
  = Returned (Ok {| TargetNode := Fallback c;
                    Reasoning := "llm call failed: " ++ err;
                    Mode_ := "hybrid"; PathTaken := "fallback" |}).
Proof.
  intros c Hm Hvalid Hlc Hprep Hall Hclient Hrender Hcall.
  rewrite (Route_hybrid _ _ _ Hm). fold c.
  rewrite (routeHybrid_phase2 _ _ _ _ Hvalid Hprep Hall).
  rewrite Hclient. cbv zeta. rewrite Hlc. simpl default.
  by rewrite Hrender, Hcall.
Qed.

Lemma hybrid_llm_failure_contained_witness :
  Route (exampleRouter (Some (λ _, CompletionOther))) emptyState
        (Some (hybridConfig [mkRule "nosuch.x > 1" "Z"] "p" {[ "a" := "X" ]} "f"))
  = Returned (Ok {| TargetNode := "f";
                    Reasoning := "llm call failed: unexpected response type from LLM";
                    Mode_ := "hybrid"; PathTaken := "fallback" |}).
Proof.
  refine (hybrid_llm_failure_contained
           (exampleRouter (Some (λ _, CompletionOther))) emptyState
           (hybridConfig [mkRule "nosuch.x > 1" "Z"] "p" {[ "a" := "X" ]} "f")
           {| PromptTemplate := "p"; Routes := {[ "a" := "X" ]} |}
           (λ _, CompletionOther) "p" "unexpected response type from LLM"
           _ _ _ _ _ _ _ _ _).
  - reflexivity.
  - reflexivity.
  - reflexivity.
  - reflexivity.
  - intros rule Hin. apply list_elem_of_singleton in Hin as ->.
    eexists. vm_compute. reflexivity.
  - reflexivity.
  - reflexivity.
  - reflexivity.
Defined.

(** [X12] An empty route key catches everything: when the routes map has
    the key "", every response matches some route, so the fallback is never
    taken for an unmatched response. *)
Theorem empty_route_key_matches_everything r response routes :
  validRange (rangeEqualFold r) → validRange (rangeContains r) →
  is_Some (routes !! "") →
  ∃ target, matchLLMResponse r response routes = (target, true) ∧
            ∃ key, routes !! key = Some target.
Proof.
  intros Hv1 Hv2 Hempty.
  destruct (matchLLMResponse r response routes) as [target []] eqn:Hm.
  - exists target. split; [done|]. by eapply matchLLMResponse_in_routes.
  - apply match_false_none in Hm as [_ Hno]; [|done].
    specialize (Hno "" (proj2 (elem_of_dom routes "") Hempty)).
    by rewrite GoStrings.ToLower_empty, Contains_empty in Hno.
Qed.

Lemma empty_route_key_matches_everything_witness :
  ∃ target,
    matchLLMResponse (exampleRouter None) "no idea"
                     (<["" := "catch"]> {[ "billing" := "B" ]})
    = (target, true) ∧
    ∃ key, (<["" := "catch"]> {[ "billing" := "B" ]} : gmap string string) !! key
           = Some target.
Proof.
  apply (empty_route_key_matches_everything (exampleRouter None) "no idea"
           (<["" := "catch"]> {[ "billing" := "B" ]})).
  - intros routes. reflexivity.
  - intros routes. reflexivity.
  - by eexists.
Defined.

(** * Further properties of the worker *)

(** [X16] The acknowledgement comes last: when [Route] does not panic, the
    calls made for an entry are at most two appends followed by the
    acknowledgement of that entry, and every append goes to the result
    stream or to its ".errors" stream (never to the input stream or anywhere
    else); when [Route] panics, no call is made at all. *)
Theorem ack_follows_appends w message tr :
  if routingPanics w message
  then handleMessage w message tr = (None, tr)
  else
    ∃ appends,
      handleMessage w message tr
      = (Some tt,
         (tr ++ appends ++
            [XAck (streamKey w) (consumerGroup w) (ID message)
                  (redisXAck w (streamKey w) (consumerGroup w) (ID message))])%list) ∧
      (length appends ≤ 2)%nat ∧
      Forall (λ c, ∃ stream data err,
                     c = XAdd stream data err ∧
                     (stream = resultStream w ∨ stream = resultStream w ++ ".errors"))
             appends.
Proof.
  destruct (routingPanics w message) eqn:Hp; [by apply handleMessage_panics|].
  unfold handleMessage.
  destruct (parseWorkRequest w (Values message)) as [request|e] eqn:Hparse.
  2:{ exists []. split; [reflexivity|]. split; [simpl; lia | constructor]. }
  unfold mbind, M_bind.
  pose proof (processRoutingRequest_calls w message request tr Hparse) as H.
  rewrite Hp in H.
  destruct H as (perr & added & -> & [[-> [e ->]] | (data & -> & Hperr)]).
  - eexists [_]. split.
    { unfold publishError, acknowledgeMessage, call. simpl.
      rewrite <- !app_assoc. simpl. reflexivity. }
    split; [simpl; lia|]. repeat constructor. eauto 6.
  - destruct perr as [e|].
    + eexists [_; _]. split.
      { unfold publishError, acknowledgeMessage, call. simpl.
        rewrite <- !app_assoc. simpl. reflexivity. }
      split; [simpl; lia|]. repeat constructor; eauto 6.
    + eexists [_]. split.
      { unfold acknowledgeMessage, call, mret, M_ret. simpl.
        rewrite <- !app_assoc. simpl. reflexivity. }
      split; [simpl; lia|]. repeat constructor. eauto 6.
Qed.

(** [X17] The published decision mirrors the routing result: when the
    request parses, its state loads and converts, its config decodes and the
    engine returns a decision, the only append is to the result stream and
    carries the request's execution and node ids with the decision's target,
    reasoning, mode and path; the acknowledgement follows. *)
Theorem decision_record_mirrors_result w message tr
    request stateData graphState nodeConfig d :
  parseWorkRequest w (Values message) = Ok request →
  stateStoreLoad w (ExecutionID request) = Ok stateData →
  convertToGraphState w (ExecutionID request) stateData = Ok graphState →
  parseNodeConfig w (Config_ request) = Ok nodeConfig →
  Route (router_ w) graphState (Some nodeConfig) = Returned (Ok d) →
  let data := DecisionRecord (ExecutionID request) (NodeID request)
                (TargetNode d) (Reasoning d) (Mode_ d) (PathTaken d) (now w) in
  redisXAdd w (resultStream w) data = None →
  handleMessage w message tr
  = (Some tt,
     (tr ++ [XAdd (resultStream w) data None;
             XAck (streamKey w) (consumerGroup w) (ID message)
                  (redisXAck w (streamKey w) (consumerGroup w) (ID message))])%list).
Proof.
  intros Hparse Hload Hconv Hcfg HRoute data Hadd.
  unfold handleMessage. rewrite Hparse.
  unfold mbind, M_bind, processRoutingRequest.
  rewrite Hload, Hconv, Hcfg, HRoute.
  unfold publishDecision, mbind, M_bind, call, mret, M_ret, acknowledgeMessage, call.
  fold data. rewrite Hadd. simpl. by rewrite <- app_assoc.
Qed.

Lemma decision_record_mirrors_result_witness :
  handleMessage exampleWorker (entry "1-0" "ok") []
  = (Some tt,
     [XAdd "router.decided"
           (DecisionRecord "exec-1" "n" "D" "no rules matched"
                           "deterministic" "fallback" 0) None;
      XAck "router.work" "router-workers" "1-0" None]).
Proof.
  apply (decision_record_mirrors_result exampleWorker (entry "1-0" "ok") []
           {| ExecutionID := "exec-1"; NodeID := "n"; Config_ := ∅ |}
           ∅ emptyState (deterministicConfig [mkRule "nosuch.x > 1" "A"] "D")
           {| TargetNode := "D"; Reasoning := "no rules matched";
              Mode_ := "deterministic"; PathTaken := "fallback" |});
    reflexivity.
Defined.

(** [X18] A processing failure is reported once, with the stage that failed:
    for a request that parses, a failure to load the state, to convert it,
    to decode the config, or of the engine itself makes exactly one append,
    to the error stream, of an error record with the request's ids and the
    message "failed to load state: ", "failed to convert state: ",
    "failed to parse node config: " or "routing failed: " followed by the
    cause; nothing is appended to the result stream. *)
Theorem processing_failure_reported w message tr request :
  parseWorkRequest w (Values message) = Ok request →
  let report := λ msg,
    let data := ErrorRecord (ExecutionID request) (NodeID request) msg (now w) in
    let stream := resultStream w ++ ".errors" in
    handleMessage w message tr
    = (Some tt,
       (tr ++ [XAdd stream data (redisXAdd w stream data);
               XAck (streamKey w) (consumerGroup w) (ID message)
                    (redisXAck w (streamKey w) (consumerGroup w) (ID message))])%list) in
  (∀ e, stateStoreLoad w (ExecutionID request) = Err e →
        report ("failed to load state: " ++ e)) ∧
  (∀ stateData e,
     stateStoreLoad w (ExecutionID request) = Ok stateData →
     convertToGraphState w (ExecutionID request) stateData = Err e →
     report ("failed to convert state: " ++ e)) ∧
  (∀ stateData graphState e,
     stateStoreLoad w (ExecutionID request) = Ok stateData →
     convertToGraphState w (ExecutionID request) stateData = Ok graphState →
     parseNodeConfig w (Config_ request) = Err e →
     report ("failed to parse node config: " ++ e)) ∧
  (∀ stateData graphState nodeConfig e,
     stateStoreLoad w (ExecutionID request) = Ok stateData →
     convertToGraphState w (ExecutionID request) stateData = Ok graphState →
     parseNodeConfig w (Config_ request) = Ok nodeConfig →
     Route (router_ w) graphState (Some nodeConfig) = Returned (Err e) →
     report ("routing failed: " ++ e)).
Proof.
  intros Hparse report. unfold report, handleMessage. rewrite Hparse.
  unfold mbind, M_bind, processRoutingRequest.
  split_and!.
  - intros e ->. unfold mret, M_ret, publishError, acknowledgeMessage, call.
    simpl. by rewrite <- app_assoc.
  - intros sd e -> ->. unfold mret, M_ret, publishError, acknowledgeMessage, call.
    simpl. by rewrite <- app_assoc.
  - intros sd gs e -> -> ->.
    unfold mret, M_ret, publishError, acknowledgeMessage, call.
    simpl. by rewrite <- app_assoc.
  - intros sd gs nc e -> -> -> ->.
    unfold mret, M_ret, publishError, acknowledgeMessage, call.
    simpl. by rewrite <- app_assoc.
Qed.

Lemma processing_failure_reported_witness :
  handleMessage exampleWorker (entry "2-0" "ok2") []
  = (Some tt,
     [XAdd "router.decided.errors"
           (ErrorRecord "exec-2" "n" "failed to load state: not found" 0) None;
      XAck "router.work" "router-workers" "2-0" None]).
Proof.
  refine (proj1 (processing_failure_reported exampleWorker (entry "2-0" "ok2") []
                   {| ExecutionID := "exec-2"; NodeID := "n"; Config_ := ∅ |} _)
                "not found" _);
    reflexivity.
Defined.

(** [X19] A decision the broker refuses is reported as an error: when the
    append to the result stream fails with [e], the worker then tries one
    append to the error stream, of an error record saying
    "failed to publish decision: failed to publish to stream: e", and still
    acknowledges the entry. *)
Theorem refused_decision_reported w message tr
    request stateData graphState nodeConfig d e :
  parseWorkRequest w (Values message) = Ok request →
  stateStoreLoad w (ExecutionID request) = Ok stateData →
  convertToGraphState w (ExecutionID request) stateData = Ok graphState →
  parseNodeConfig w (Config_ request) = Ok nodeConfig →
  Route (router_ w) graphState (Some nodeConfig) = Returned (Ok d) →
  let data := DecisionRecord (ExecutionID request) (NodeID request)
                (TargetNode d) (Reasoning d) (Mode_ d) (PathTaken d) (now w) in
  let report := ErrorRecord (ExecutionID request) (NodeID request)
                  ("failed to publish decision: failed to publish to stream: " ++ e)
                  (now w) in
  redisXAdd w (resultStream w) data = Some e →
  handleMessage w message tr
  = (Some tt,
     (tr ++ [XAdd (resultStream w) data (Some e);
             XAdd (resultStream w ++ ".errors") report
                  (redisXAdd w (resultStream w ++ ".errors") report);
             XAck (streamKey w) (consumerGroup w) (ID message)
                  (redisXAck w (streamKey w) (consumerGroup w) (ID message))])%list).
Proof.
  intros Hparse Hload Hconv Hcfg HRoute data report Hadd.
  unfold handleMessage. rewrite Hparse.
  unfold mbind, M_bind, processRoutingRequest.
  rewrite Hload, Hconv, Hcfg, HRoute.
  unfold publishDecision, mbind, M_bind, call, mret, M_ret, publishError,
    acknowledgeMessage, call.
  fold data. rewrite Hadd. simpl. by rewrite <- !app_assoc.
Qed.

Lemma refused_decision_reported_witness :
  handleMessage brokerDownWorker (entry "1-0" "ok") []
  = (Some tt,
     [XAdd "router.decided"
           (DecisionRecord "exec-1" "n" "D" "no rules matched"
                           "deterministic" "fallback" 0) (Some "connection refused");
      XAdd "router.decided.errors"
           (ErrorRecord "exec-1" "n"
              "failed to publish decision: failed to publish to stream: connection refused"
              0) (Some "connection refused");
      XAck "router.work" "router-workers" "1-0" (Some "connection refused")]).
Proof.
  apply (refused_decision_reported brokerDownWorker (entry "1-0" "ok") []
           {| ExecutionID := "exec-1"; NodeID := "n"; Config_ := ∅ |}
           ∅ emptyState (deterministicConfig [mkRule "nosuch.x > 1" "A"] "D")
           {| TargetNode := "D"; Reasoning := "no rules matched";
              Mode_ := "deterministic"; PathTaken := "fallback" |}
           "connection refused");
    reflexivity.
Defined.

(** [X20] The graph id defaults to the execution id: a converted state keeps
    the decoded state's status, inputs and node states; its graph id is the
    decoded one when that is non-empty and the execution id otherwise, so it
    is non-empty whenever the execution id is. *)
Theorem graph_id_defaults_to_execution_id w graphID stateData graphState :
  convertToGraphState w graphID stateData = Ok graphState →
  ∃ data decoded,
    jsonMarshal w stateData = Ok data ∧
    jsonUnmarshalGraphState w data = Ok decoded ∧
    GraphID graphState
    = (if String.eqb (GraphID decoded) "" then graphID else GraphID decoded) ∧
    Status graphState = Status decoded ∧
    Inputs graphState = Inputs decoded ∧
    NodeStates graphState = NodeStates decoded ∧
    (graphID ≠ "" → GraphID graphState ≠ "").
Proof.
  unfold convertToGraphState. intros H.
  destruct (jsonMarshal w stateData) as [data|] eqn:Hdata; [|done].
  destruct (jsonUnmarshalGraphState w data) as [decoded|] eqn:Hdec; [|done].
  exists data, decoded. split; [done|]. split; [done|].
  destruct (String.eqb_spec (GraphID decoded) "") as [He|He];
    injection H as <-; simpl; split_and!; done.
Qed.

Lemma graph_id_defaults_to_execution_id_witness :
  ∃ data decoded,
    jsonMarshal noGraphIDWorker ∅ = Ok data ∧
    jsonUnmarshalGraphState noGraphIDWorker data = Ok decoded ∧
    "exec-1" = (if String.eqb (GraphID decoded) "" then "exec-1" else GraphID decoded) ∧
    "running" = Status decoded ∧
    (∅ : gmap string Value) = Inputs decoded ∧
    (∅ : gmap string (option NodeState)) = NodeStates decoded ∧
    ("exec-1" ≠ "" → "exec-1" ≠ "").
Proof.
  apply (graph_id_defaults_to_execution_id noGraphIDWorker "exec-1" ∅
           {| GraphID := "exec-1"; Status := "running"; Inputs := ∅;
              NodeStates := ∅ |}).
  reflexivity.
Defined.

(** [X21] An entry without a string [data] field is only acknowledged: the
    JSON decoder is not consulted, nothing is appended to any stream, and
    the single call made is the acknowledgement of the entry. *)
Theorem entry_without_data_only_acknowledged w message tr :
  (∀ s, Values message !! "data" ≠ Some (VStr s)) →
  parseWorkRequest w (Values message) = Err "missing or invalid 'data' field" ∧
  handleMessage w message tr
  = (Some tt,
     (tr ++ [XAck (streamKey w) (consumerGroup w) (ID message)
                  (redisXAck w (streamKey w) (consumerGroup w) (ID message))])%list).
Proof.
  intros Hno.
  assert (Hparse : parseWorkRequest w (Values message)
                   = Err "missing or invalid 'data' field").
  { unfold parseWorkRequest.
    destruct (Values message !! "data") as [[| | |s| |]|] eqn:Hd; try done.
    by destruct (Hno s). }
  split; [done|]. unfold handleMessage. by rewrite Hparse.
Qed.

Lemma entry_without_data_only_acknowledged_witness :
  parseWorkRequest exampleWorker {[ "data" := VNum 7 ]}
  = Err "missing or invalid 'data' field" ∧
  handleMessage exampleWorker {| ID := "3-0"; Values := {[ "data" := VNum 7 ]} |} []
  = (Some tt, [XAck "router.work" "router-workers" "3-0" None]).
Proof.
  refine (entry_without_data_only_acknowledged exampleWorker
            {| ID := "3-0"; Values := {[ "data" := VNum 7 ]} |} [] _).
  intros s. discriminate.
Defined.

(** * The worker's settings *)

Lemma isValidLogLevel_true level :
  config.isValidLogLevel level = true ↔
  level = "debug" ∨ level = "info" ∨ level = "warn" ∨ level = "error".
Proof.
  unfold config.isValidLogLevel. rewrite !lookup_insert, lookup_empty.
  repeat case_decide; subst; simpl; split; try done; try tauto; auto.
  intros [? | [? | [? | ?]]]; congruence.
Qed.

Lemma Validate_None c :
  config.Validate c = None ↔
  config.WorkerID c ≠ "" ∧ config.RedisAddr c ≠ "" ∧ config.StreamKey c ≠ "" ∧
  config.ConsumerGroup c ≠ "" ∧ config.ResultStream c ≠ "" ∧
  config.LLMProvider c ≠ "" ∧ config.LLMModel c ≠ "" ∧
  (0 < config.LLMTimeout c)%Z ∧ (0 < config.BlockTime c)%Z ∧
  (0 ≤ config.MaxRetries c)%Z ∧
  (1 ≤ config.HealthPort c ≤ 65535)%Z ∧
  (config.LogLevel c = "debug" ∨ config.LogLevel c = "info" ∨
   config.LogLevel c = "warn" ∨ config.LogLevel c = "error").
Proof.
  rewrite <- isValidLogLevel_true. unfold config.Validate.
  destruct (String.eqb_spec (config.WorkerID c) ""); [split; [done | tauto]|].
  destruct (String.eqb_spec (config.RedisAddr c) ""); [split; [done | tauto]|].
  destruct (String.eqb_spec (config.StreamKey c) ""); [split; [done | tauto]|].
  destruct (String.eqb_spec (config.ConsumerGroup c) ""); [split; [done | tauto]|].
  destruct (String.eqb_spec (config.ResultStream c) ""); [split; [done | tauto]|].
  destruct (String.eqb_spec (config.LLMProvider c) ""); [split; [done | tauto]|].
  destruct (String.eqb_spec (config.LLMModel c) ""); [split; [done | tauto]|].
  destruct (Z.leb_spec (config.LLMTimeout c) 0); [split; [done | lia]|].
  destruct (Z.leb_spec (config.BlockTime c) 0); [split; [done | lia]|].
  destruct (Z.ltb_spec (config.MaxRetries c) 0); [split; [done | lia]|].
  destruct (Z.leb_spec (config.HealthPort c) 0); [split; [done | lia]|].
  destruct (Z.gtb_spec (config.HealthPort c) 65535); [split; [done | lia]|].
  simpl.
  destruct (config.isValidLogLevel (config.LogLevel c)); simpl.
  - split; [|done]. intros _. split_and!; try done; lia.
  - split; [done|]. intros Hall. decompose [and] Hall. done.
Qed.

(** [X22] [Load] returns a config exactly when the environment parsed and
    the parsed config has a non-empty worker id, Redis address, stream key,
    consumer group, result stream, LLM provider and LLM model, positive LLM
    timeout and block time, non-negative retries, a health port between 1
    and 65535 and a log level among debug, info, warn, error (lower case);
    the config returned is the parsed one.  The API key, the Redis password
    and database, and the CEL switch are not checked. *)
Theorem config_loaded_exactly_when_valid parsed c :
  config.Load parsed = Ok c ↔
  parsed = Ok c ∧
  config.WorkerID c ≠ "" ∧ config.RedisAddr c ≠ "" ∧ config.StreamKey c ≠ "" ∧
  config.ConsumerGroup c ≠ "" ∧ config.ResultStream c ≠ "" ∧
  config.LLMProvider c ≠ "" ∧ config.LLMModel c ≠ "" ∧
  (0 < config.LLMTimeout c)%Z ∧ (0 < config.BlockTime c)%Z ∧
  (0 ≤ config.MaxRetries c)%Z ∧
  (1 ≤ config.HealthPort c ≤ 65535)%Z ∧
  (config.LogLevel c = "debug" ∨ config.LogLevel c = "info" ∨
   config.LogLevel c = "warn" ∨ config.LogLevel c = "error").
Proof.
  rewrite <- Validate_None. unfold config.Load.
  destruct parsed as [cfg|e]; [|split; [done | by intros [? _]]].
  destruct (config.Validate cfg) eqn:Hv.
  - split; [done|]. intros [[= ->] H]. congruence.
  - split.
    + by intros [= <-].
    + by intros [[= ->] _].
Qed.

(** The defaults of the environment variables load. *)
Example defaults_load : config.Load (Ok config.defaults) = Ok config.defaults.
Proof. reflexivity. Qed.

Example upper_case_level_refused :
  config.Load (Ok {| config.WorkerID := "router-1";
                     config.RedisAddr := "localhost:6379";
                     config.RedisPassword := ""; config.RedisDB := 0;
                     config.StreamKey := "router.work";
                     config.ConsumerGroup := "router-workers";
                     config.ResultStream := "router.decided";
                     config.BlockTime := 1000000000; config.MaxRetries := 3;
                     config.LLMProvider := "anthropic"; config.LLMAPIKey := "";
                     config.LLMModel := "m"; config.LLMTimeout := 1;
                     config.CELEnabled := true; config.HealthPort := 8082;
                     config.LogLevel := "INFO" |})
  = Err "invalid config: LOG_LEVEL must be one of: debug, info, warn, error".
Proof. reflexivity. Qed.

(** * The health probes *)

(** [X23] The two probes agree on the status code: 200 when the Redis ping
    succeeds and 503 when it fails; /health names the single check [redis],
    "healthy" or "unhealthy: " followed by the ping error, and /ready names
    no check. *)
Theorem probes_agree (ping : option string) :
  (health.handleHealth ping).1 = (health.handleReady ping).1 ∧
  ((health.handleHealth ping).1 = 200%Z ↔ ping = None) ∧
  ((health.handleHealth ping).1 = 503%Z ↔ is_Some ping) ∧
  health.Checks (health.handleHealth ping).2
  = {[ "redis" := match ping with
                  | Some err => "unhealthy: " ++ err
                  | None => "healthy"
                  end ]} ∧
  health.Checks (health.handleReady ping).2 = ∅ ∧
  (health.Status_ (health.handleHealth ping).2 = "healthy" ↔ ping = None) ∧
  (health.Status_ (health.handleReady ping).2 = "ready" ↔ ping = None).
Proof.
  destruct ping as [e|]; simpl; split_and!; try done;
    try (split; [done | by intros [? ?]]); try (split; [by eauto | done]).
Qed.

(** * The state store *)

Lemma stateKey_inj a b : statestore.stateKey a = statestore.stateKey b → a = b.
Proof. unfold statestore.stateKey. simpl. intros H. by simplify_eq. Qed.

Lemma save_then_load_aux cd rd executionID st data :
  statestore.down rd = None →
  statestore.marshal cd st = Ok data →
  statestore.unmarshal cd data = Ok st →
  (statestore.Save cd rd executionID st).1 = None ∧
  statestore.Load cd (statestore.Save cd rd executionID st).2 executionID = Ok st.
Proof.
  intros Hup Hm Hu.
  unfold statestore.Save, statestore.redisSet. rewrite Hm, Hup. simpl.
  unfold statestore.Load, statestore.redisGet. simpl.
  by rewrite lookup_insert_eq, Hu.
Qed.

(** [X24] Save then load: on a reachable Redis, with a codec that reads
    back what it wrote for this state, saving a state under an execution id
    succeeds, a later load of that id returns the state, the id then exists,
    and the states stored under other ids are untouched. *)
Theorem save_then_load cd rd executionID st data :
  statestore.down rd = None →
  statestore.marshal cd st = Ok data →
  statestore.unmarshal cd data = Ok st →
  (statestore.Save cd rd executionID st).1 = None ∧
  statestore.Load cd (statestore.Save cd rd executionID st).2 executionID = Ok st ∧
  statestore.Exists (statestore.Save cd rd executionID st).2 executionID = Ok true ∧
  ∀ other, other ≠ executionID →
    statestore.Load cd (statestore.Save cd rd executionID st).2 other
    = statestore.Load cd rd other.
Proof.
  intros Hup Hm Hu.
  unfold statestore.Save, statestore.redisSet. rewrite Hm, Hup. simpl.
  unfold statestore.Load, statestore.Exists, statestore.redisGet,
    statestore.redisExists. simpl. rewrite Hup.
  rewrite lookup_insert_eq, Hu. split_and!; try done.
  intros other Hne. rewrite lookup_insert_ne; [done|].
  intros H. by apply stateKey_inj in H.
Qed.

Lemma save_then_load_witness :
  (statestore.Save exampleCodec emptyRedis "exec-1" ∅).1 = None ∧
  statestore.Load exampleCodec
    (statestore.Save exampleCodec emptyRedis "exec-1" ∅).2 "exec-1" = Ok ∅ ∧
  statestore.Exists (statestore.Save exampleCodec emptyRedis "exec-1" ∅).2 "exec-1"
  = Ok true ∧
  ∀ other, other ≠ "exec-1" →
    statestore.Load exampleCodec
      (statestore.Save exampleCodec emptyRedis "exec-1" ∅).2 other
    = statestore.Load exampleCodec emptyRedis other.
Proof.
  apply (save_then_load exampleCodec emptyRedis "exec-1" ∅ "{}"); reflexivity.
Defined.

(** [X25] Delete forgets: on a reachable Redis, deleting an execution id
    succeeds whether or not a state was stored; afterwards a load of that id
    fails with "state not found for execution <id>", the id does not exist,
    and the states stored under other ids are untouched. *)
Theorem delete_forgets_state cd rd executionID :
  statestore.down rd = None →
  (statestore.Delete rd executionID).1 = None ∧
  statestore.Load cd (statestore.Delete rd executionID).2 executionID
  = Err ("state not found for execution " ++ executionID) ∧
  statestore.Exists (statestore.Delete rd executionID).2 executionID = Ok false ∧
  ∀ other, other ≠ executionID →
    statestore.Load cd (statestore.Delete rd executionID).2 other
    = statestore.Load cd rd other.
Proof.
  intros Hup.
  unfold statestore.Delete, statestore.redisDel. rewrite Hup. simpl.
  unfold statestore.Load, statestore.Exists, statestore.redisGet,
    statestore.redisExists. simpl. rewrite Hup.
  rewrite lookup_delete_eq. split_and!; try done.
  intros other Hne. rewrite lookup_delete_ne; [done|].
  intros H. by apply stateKey_inj in H.
Qed.

Lemma delete_forgets_state_witness :
  let rd := (statestore.Save exampleCodec emptyRedis "exec-1" ∅).2 in
  (statestore.Delete rd "exec-1").1 = None ∧
  statestore.Load exampleCodec (statestore.Delete rd "exec-1").2 "exec-1"
  = Err "state not found for execution exec-1" ∧
  statestore.Exists (statestore.Delete rd "exec-1").2 "exec-1" = Ok false ∧
  ∀ other, other ≠ "exec-1" →
    statestore.Load exampleCodec (statestore.Delete rd "exec-1").2 other
    = statestore.Load exampleCodec rd other.
Proof.
  apply (delete_forgets_state exampleCodec
           (statestore.Save exampleCodec emptyRedis "exec-1" ∅).2 "exec-1").
  reflexivity.
Defined.

Lemma prefix_append p s : String.prefix p (p ++ s) = true.
Proof. induction p as [|a p IH]; simpl; [by destruct s|]. by destruct (ascii_dec a a). Qed.

Lemma prefix_split p : ∀ key,
  String.prefix p key = true →
  key = p ++ statestore.sliceFrom (String.length p) key.
Proof.
  induction p as [|a p IH]; intros [|b key]; simpl; try done.
  destruct (ascii_dec a b) as [->|]; [|done].
  intros H.
  transitivity (String b (p ++ statestore.sliceFrom (String.length p) key));
    [|reflexivity].
  f_equal. by apply IH.
Qed.

Lemma sliceFrom_append p s : statestore.sliceFrom (String.length p) (p ++ s) = s.
Proof. induction p as [|a p IH]; simpl; [by destruct s | done]. Qed.

Lemma extractIDs_elem prefix keys executionID :
  executionID ∈ statestore.extractIDs prefix keys ↔
  ∃ key, key ∈ keys ∧ (String.length prefix < String.length key)%nat ∧
         executionID = statestore.sliceFrom (String.length prefix) key.
Proof.
  induction keys as [|k rest IH]; simpl.
  - split; [by intros ?%elem_of_nil | by intros (? & ?%elem_of_nil & _)].
  - destruct (Nat.ltb_spec (String.length prefix) (String.length k)) as [Hlt|Hge].
    + rewrite elem_of_cons, IH. split.
      * intros [-> | (key & Hin & Hl & ->)].
        -- exists k. split; [left | done].
        -- exists key. split; [by right | done].
      * intros (key & Hin & Hl & ->).
        apply elem_of_cons in Hin as [-> | Hin]; [by left | right; eauto].
    + rewrite IH. split.
      * intros (key & Hin & Hl & ->). exists key. split; [by right | done].
      * intros (key & Hin & Hl & ->).
        apply elem_of_cons in Hin as [-> | Hin]; [lia | eauto].
Qed.

(** [X26] [List] returns the ids that have a stored state: on a reachable
    Redis an id is listed exactly when it is non-empty and the key
    "graph:state:<id>" is present; keys outside that prefix, and the bare
    key "graph:state:", contribute nothing. *)
Theorem list_returns_stored_ids rd :
  statestore.down rd = None →
  ∃ ids, statestore.List rd = Ok ids ∧
         ∀ executionID,
           executionID ∈ ids ↔
           executionID ≠ "" ∧
           is_Some (statestore.kv rd !! statestore.stateKey executionID).
Proof.
  intros Hup. unfold statestore.List, statestore.redisKeys. rewrite Hup.
  eexists. split; [reflexivity|]. intros executionID.
  rewrite extractIDs_elem. split.
  - intros (key & Hin & Hlen & ->).
    apply list_elem_of_filter in Hin as [Hpre Hin].
    apply list_elem_of_fmap in Hin as ([k v] & -> & Hkv).
    apply elem_of_map_to_list in Hkv. cbn [fst] in *.
    pose proof (prefix_split _ _ Hpre) as Hsplit.
    split.
    + intros Hempty. rewrite Hempty in Hsplit. rewrite Hsplit in Hlen.
      vm_compute in Hlen. lia.
    + unfold statestore.stateKey. rewrite <- Hsplit. eauto.
  - intros [Hne [v Hv]]. exists (statestore.stateKey executionID).
    split; [|split].
    + apply list_elem_of_filter. split; [apply prefix_append|].
      apply list_elem_of_fmap. exists (statestore.stateKey executionID, v).
      split; [done|]. by apply elem_of_map_to_list.
    + unfold statestore.stateKey. rewrite length_append.
      destruct executionID; [done | simpl; lia].
    + unfold statestore.stateKey. by rewrite sliceFrom_append.
Qed.

Lemma list_returns_stored_ids_witness :
  let rd := {| statestore.kv :=
                 <["graph:state:exec-1" := "{}"]>
                   (<["graph:state:" := "{}"]> {[ "other:exec-2" := "{}" ]});
               statestore.down := None |} in
  ∃ ids, statestore.List rd = Ok ids ∧
         ∀ executionID,
           executionID ∈ ids ↔
           executionID ≠ "" ∧
           is_Some (statestore.kv rd !! statestore.stateKey executionID).
Proof.
  apply (list_returns_stored_ids
           {| statestore.kv :=
                <["graph:state:exec-1" := "{}"]>
                  (<["graph:state:" := "{}"]> {[ "other:exec-2" := "{}" ]});
              statestore.down := None |}).
  reflexivity.
Defined.

Example list_example :
  statestore.List
    {| statestore.kv :=
         <["graph:state:exec-1" := "{}"]>
           (<["graph:state:" := "{}"]> {[ "other:exec-2" := "{}" ]});
       statestore.down := None |}
  = Ok ["exec-1"].
Proof. vm_compute. done. Qed.

(** [X27] A [map[string]interface{}] saved through [SaveState] is read back
    through [GetState] by its graph id, as a [state.State]: on a reachable
    Redis and with a codec that reads back what it wrote, a map whose
    [graph_id] is the string [g] is returned by [GetState g], whatever its
    [execution_id] says.  What [GetState] returns is not accepted back:
    [SaveState] refuses every [state.State], and every value of another
    type, naming the type, and leaves the store as it was. *)
Theorem SaveState_then_GetState cd rd (stateMap : gmap string Value) g data :
  statestore.down rd = None →
  stateMap !! "graph_id" = Some (VStr g) →
  statestore.marshal cd stateMap = Ok data →
  statestore.unmarshal cd data = Ok stateMap →
  let rd' := (statestore.SaveState cd rd (statestore.AnyMap stateMap)).2 in
  (statestore.SaveState cd rd (statestore.AnyMap stateMap)).1 = None ∧
  statestore.GetState cd rd' g = Ok (statestore.AnyState stateMap) ∧
  (∀ st, statestore.SaveState cd rd' (statestore.AnyState st)
         = (Some "expected map[string]interface{}, got state.State", rd')) ∧
  (∀ typeName, statestore.SaveState cd rd' (statestore.AnyOther typeName)
               = (Some ("expected map[string]interface{}, got " ++ typeName), rd')).
Proof.
  intros Hup Hg Hm Hu rd'. unfold rd'.
  assert (statestore.SaveState cd rd (statestore.AnyMap stateMap)
          = statestore.Save cd rd g stateMap) as ->
    by (unfold statestore.SaveState; by rewrite Hg).
  unfold statestore.GetState.
  destruct (save_then_load_aux cd rd g stateMap data Hup Hm Hu) as (H1 & H2).
  rewrite H2. done.
Qed.

Lemma SaveState_then_GetState_witness :
  let stateMap : gmap string Value :=
    <["graph_id" := VStr "g-1"]> {[ "execution_id" := VStr "exec-9" ]} in
  let cd := codecReading stateMap in
  let rd' := (statestore.SaveState cd emptyRedis (statestore.AnyMap stateMap)).2 in
  (statestore.SaveState cd emptyRedis (statestore.AnyMap stateMap)).1 = None ∧
  statestore.GetState cd rd' "g-1" = Ok (statestore.AnyState stateMap) ∧
  (∀ st, statestore.SaveState cd rd' (statestore.AnyState st)
         = (Some "expected map[string]interface{}, got state.State", rd')) ∧
  (∀ typeName, statestore.SaveState cd rd' (statestore.AnyOther typeName)
               = (Some ("expected map[string]interface{}, got " ++ typeName), rd')).
Proof.
  apply (SaveState_then_GetState
           (codecReading (<["graph_id" := VStr "g-1"]>
                            {[ "execution_id" := VStr "exec-9" ]}))
           emptyRedis
           (<["graph_id" := VStr "g-1"]> {[ "execution_id" := VStr "exec-9" ]})
           "g-1" "{}");
    reflexivity.
Defined.

(** * The compile caches *)

Section CelCache.
Context (env : cel.Env).

Lemma getProgram_sound cache expression :
  celCacheSound env cache →
  (cel.getProgram env cache expression).1
  = (cel.getProgram env ∅ expression).1 ∧
  celCacheSound env (cel.getProgram env cache expression).2 ∧
  (∀ other, other ≠ expression →
            (cel.getProgram env cache expression).2 !! other = cache !! other) ∧
  (∀ program, (cel.getProgram env cache expression).1 = Ok program →
              (cel.getProgram env cache expression).2 !! expression = Some program).
Proof.
  intros Hsound. unfold cel.getProgram. rewrite lookup_empty.
  destruct (cache !! expression) as [program|] eqn:Hc.
  - destruct (Hsound _ _ Hc) as (ast & -> & ->). simpl.
    split_and!; [done | done | done |]. by intros p [= <-].
  - destruct (cel.Compile env expression) as [ast|e] eqn:Hcomp; simpl.
    2:{ split_and!; done. }
    destruct (cel.MakeProgram env ast) as [program|e] eqn:Hprog; simpl.
    2:{ split_and!; done. }
    split_and!; [done | | |].
    + intros e p. rewrite lookup_insert. case_decide as He.
      * intros [= <-]. subst e. eauto.
      * apply Hsound.
    + intros other Hne. by rewrite lookup_insert_ne.
    + intros p [= <-]. apply lookup_insert_eq.
Qed.

End CelCache.

(** [X28] The program cache is transparent: when every cached program is
    the one compiling its expression gives, [Evaluate] does what it does on
    an empty cache (the same error, or the same panic) and never returns a
    value; the cache afterwards still has that property, keeps every other
    entry as it was, and holds a program for the expression unless
    compiling it failed (a failed compile is not cached). *)
Theorem cel_cache_transparent (env : cel.Env) cache expression vars :
  celCacheSound env cache →
  (cel.Evaluate env cache expression vars).1
  = (cel.Evaluate env ∅ expression vars).1 ∧
  (∀ v, (cel.Evaluate env cache expression vars).1 ≠ Return (Ok v)) ∧
  celCacheSound env (cel.Evaluate env cache expression vars).2 ∧
  (∀ other, other ≠ expression →
     (cel.Evaluate env cache expression vars).2 !! other = cache !! other) ∧
  (is_Some ((cel.Evaluate env cache expression vars).2 !! expression) ∨
   (cel.Evaluate env cache expression vars).2 = cache ∧
   ∃ err, (cel.Evaluate env cache expression vars).1
          = Return (Err ("failed to compile expression: " ++ err))).
Proof.
  intros Hsound.
  destruct (getProgram_sound env cache expression Hsound) as (Hres & Hs & Hother & Hin).
  assert (Hfail : ∀ e, (cel.getProgram env cache expression).1 = Err e →
                       (cel.getProgram env cache expression).2 = cache).
  { unfold cel.getProgram. repeat case_match; simpl; done. }
  split; [|split; [intros v; apply Evaluate_never_value|]].
  - unfold cel.Evaluate.
    destruct (cel.getProgram env cache expression) as [[program|e] cache'];
      destruct (cel.getProgram env ∅ expression) as [[program0|e0] cache0];
      simpl in *; simplify_eq; [|done].
    repeat case_match; simpl; done.
  - unfold cel.Evaluate.
    destruct (cel.getProgram env cache expression) as [[program|e] cache'] eqn:Hget;
      simpl in *.
    + specialize (Hin _ eq_refl).
      repeat case_match; simpl; split_and!; eauto.
    + rewrite (Hfail _ eq_refl). split_and!; eauto.
Qed.

Lemma cel_cache_transparent_witness :
  let cache : gmap string string := {[ "false" := "false" ]} in
  (cel.Evaluate exampleCel cache "nosuch.x > 1" ∅).1
  = (cel.Evaluate exampleCel ∅ "nosuch.x > 1" ∅).1 ∧
  (∀ v, (cel.Evaluate exampleCel cache "nosuch.x > 1" ∅).1 ≠ Return (Ok v)) ∧
  celCacheSound exampleCel (cel.Evaluate exampleCel cache "nosuch.x > 1" ∅).2 ∧
  (∀ other, other ≠ "nosuch.x > 1" →
     (cel.Evaluate exampleCel cache "nosuch.x > 1" ∅).2 !! other = cache !! other) ∧
  (is_Some ((cel.Evaluate exampleCel cache "nosuch.x > 1" ∅).2 !! "nosuch.x > 1") ∨
   (cel.Evaluate exampleCel cache "nosuch.x > 1" ∅).2 = cache ∧
   ∃ err, (cel.Evaluate exampleCel cache "nosuch.x > 1" ∅).1
          = Return (Err ("failed to compile expression: " ++ err))).
Proof.
  apply (cel_cache_transparent exampleCel {[ "false" := "false" ]} "nosuch.x > 1" ∅).
  intros expression program [<- <-]%lookup_singleton_Some.
  exists "false". split; reflexivity.
Defined.

(** [X29] The template cache is transparent: when every cached template is
    the one parsing its text gives, [Render] returns what it returns on an
    empty cache; the cache afterwards still has that property, keeps every
    other entry as it was, and holds the parsed template unless parsing
    failed (a failed parse is not cached). *)
Theorem template_cache_transparent {Template}
    (lib : template.Lib Template) cache templateStr data :
  templateCacheSound lib cache →
  (template.Render lib cache templateStr data).1
  = (template.Render lib ∅ templateStr data).1 ∧
  templateCacheSound lib (template.Render lib cache templateStr data).2 ∧
  (∀ other, other ≠ templateStr →
     (template.Render lib cache templateStr data).2 !! other = cache !! other) ∧
  (is_Some ((template.Render lib cache templateStr data).2 !! templateStr) ∨
   (template.Render lib cache templateStr data).2 = cache ∧
   ∃ err, (template.Render lib cache templateStr data).1
          = Err ("failed to compile template: " ++ err)).
Proof.
  intros Hsound. unfold template.Render, template.getTemplate.
  rewrite lookup_empty.
  destruct (cache !! templateStr) as [tmpl|] eqn:Hc.
  - rewrite (Hsound _ _ Hc).
    destruct (template.Exec lib tmpl data); simpl;
      (split_and!; [done | done | done | left; by rewrite Hc]).
  - destruct (template.Parse lib templateStr) as [tmpl|e] eqn:Hp; simpl.
    2:{ split_and!; [done | done | done | right; eauto]. }
    assert (Hs' : templateCacheSound lib (<[templateStr := tmpl]> cache)).
    { intros t p. rewrite lookup_insert. case_decide as He.
      - intros [= <-]. by subst t.
      - apply Hsound. }
    destruct (template.Exec lib tmpl data); simpl;
      (split_and!; [done | done | by intros other Hne; rewrite lookup_insert_ne
                   | left; by rewrite lookup_insert_eq]).
Qed.

Lemma template_cache_transparent_witness :
  (template.Render exampleTemplateLib {[ "p" := "p" ]} "{{#if}}" ∅).1
  = (template.Render exampleTemplateLib ∅ "{{#if}}" ∅).1 ∧
  templateCacheSound exampleTemplateLib
    (template.Render exampleTemplateLib {[ "p" := "p" ]} "{{#if}}" ∅).2 ∧
  (∀ other, other ≠ "{{#if}}" →
     (template.Render exampleTemplateLib {[ "p" := "p" ]} "{{#if}}" ∅).2 !! other
     = ({[ "p" := "p" ]} : gmap string string) !! other) ∧
  (is_Some ((template.Render exampleTemplateLib {[ "p" := "p" ]} "{{#if}}" ∅).2
            !! "{{#if}}") ∨
   (template.Render exampleTemplateLib {[ "p" := "p" ]} "{{#if}}" ∅).2
   = {[ "p" := "p" ]} ∧
   ∃ err, (template.Render exampleTemplateLib {[ "p" := "p" ]} "{{#if}}" ∅).1
          = Err ("failed to compile template: " ++ err)).
Proof.
  apply (template_cache_transparent exampleTemplateLib {[ "p" := "p" ]} "{{#if}}" ∅).
  intros t tmpl [<- <-]%lookup_singleton_Some. reflexivity.
Defined.

(** * The worker over the Redis-backed store *)

(** [X30] A work item whose state is not in the store is reported, not
    dropped: for a worker whose state store is the Redis-backed one, on a
    reachable Redis without the key "graph:state:<execution id>", an entry
    that parses gets one append, to the error stream, of an error record
    saying "failed to load state: state not found for execution
    <execution id>", followed by the acknowledgement. *)
Theorem missing_state_reported w cd rd message tr request :
  stateStoreLoad w = statestore.Load cd rd →
  statestore.down rd = None →
  parseWorkRequest w (Values message) = Ok request →
  statestore.kv rd !! statestore.stateKey (ExecutionID request) = None →
  let report :=
    ErrorRecord (ExecutionID request) (NodeID request)
      ("failed to load state: state not found for execution "
       ++ ExecutionID request) (now w) in
  handleMessage w message tr
  = (Some tt,
     (tr ++ [XAdd (resultStream w ++ ".errors") report
                  (redisXAdd w (resultStream w ++ ".errors") report);
             XAck (streamKey w) (consumerGroup w) (ID message)
                  (redisXAck w (streamKey w) (consumerGroup w) (ID message))])%list).
Proof.
  intros Hstore Hup Hparse Hmissing report.
  unfold handleMessage. rewrite Hparse.
  unfold mbind, M_bind, processRoutingRequest. rewrite Hstore.
  unfold statestore.Load, statestore.redisGet. rewrite Hup, Hmissing.
  unfold mret, M_ret, publishError, acknowledgeMessage, call.
  simpl. by rewrite <- app_assoc.
Qed.

Lemma missing_state_reported_witness :
  handleMessage (storeWorker exampleCodec emptyRedis) (entry "1-0" "ok") []
  = (Some tt,
     [XAdd "router.decided.errors"
           (ErrorRecord "exec-1" "n"
              "failed to load state: state not found for execution exec-1" 0)
           None;
      XAck "router.work" "router-workers" "1-0" None]).
Proof.
  apply (missing_state_reported (storeWorker exampleCodec emptyRedis)
           exampleCodec emptyRedis (entry "1-0" "ok") []
           {| ExecutionID := "exec-1"; NodeID := "n"; Config_ := ∅ |});
    reflexivity.
Defined.
